(** * django-advanced-filters: the condition compiler and the stored filter

    A shallow embedding of [advanced_filters/models.py] and
    [advanced_filters/admin.py], and the properties of the expression
    compiler ([AdvancedFilterAdmin.generate_query], [Condition.make_query],
    [Condition.build_query_dict]) and of the stored filter
    ([AdvancedFilter.query], [AdvancedFilter.list_fields],
    [AdvancedFilter._parse_query_dict]).

    Python values are an inductive type, exceptions are the [Err] side of a
    small error monad, and the attributes of a model instance that a method
    assigns are threaded as explicit state.  A name that a function reads
    and that its module neither binds nor finds among the builtins raises
    [NameError] where it is read, as it does when the code runs. *)

From Stdlib Require Import String Ascii List ZArith Bool Lia Arith.
From Stdlib Require Import Sorted Permutation.
Import ListNotations.

Local Open Scope list_scope.
Local Open Scope string_scope.

Set Implicit Arguments.

(* ================================================================== *)
(** ** Exceptions and the error monad *)

Inductive exn : Type :=
| NotAQuery              (* Exception('Must only be passed a Django (Q)uery object') *)
| FieldPathError         (* Exception('Field path ... could not be followed ...') *)
| KeyError (key : string)
| NameError              (* a name bound neither in the module nor as a builtin *)
| BudgetExceededError
| CorruptEncodingError.

Inductive result (A : Type) : Type :=
| OK (a : A)
| Err (e : exn).

Arguments OK {A} a.
Arguments Err {A} e.

Definition bind {A B : Type} (m : result A) (k : A -> result B) : result B :=
  match m with
  | OK a => k a
  | Err e => Err e
  end.

Notation "x <- m ;; k" := (bind m (fun x => k))
  (at level 61, m at next level, right associativity).

Fixpoint mapM {A B : Type} (f : A -> result B) (l : list A) : result (list B) :=
  match l with
  | [] => OK []
  | a :: l' => b <- f a ;; bs <- mapM f l' ;; OK (b :: bs)
  end.

(* ================================================================== *)
(** ** Python values that reach the filter code *)

Inductive scalar : Type :=
| SInt (z : Z)
| SStr (s : string).

Inductive pyval : Type :=
| VNone
| VBool (b : bool)
| VInt (z : Z)
| VStr (s : string)
| VList (items : list scalar).

(** [isinstance(v, list)] *)
Definition is_list (v : pyval) : bool :=
  match v with VList _ => true | _ => false end.

(* ================================================================== *)
(** ** [str.split('__')] and ['__'.join] *)

Definition is_underscore (c : ascii) : bool := Ascii.eqb c "_"%char.

Definition cons_head (c : ascii) (parts : list string) : list string :=
  match parts with
  | [] => [String c EmptyString]
  | p :: ps => String c p :: ps
  end.

(** Python's [s.split('__')]: the separator is matched from the left and
    matches never overlap; the result always has at least one part. *)
Fixpoint split_dunder (s : string) : list string :=
  match s with
  | EmptyString => [EmptyString]
  | String c r =>
      match r with
      | EmptyString => cons_head c (split_dunder r)
      | String c2 r2 =>
          if is_underscore c && is_underscore c2
          then EmptyString :: split_dunder r2
          else cons_head c (split_dunder r)
      end
  end.

(** ['__'.join(parts)] *)
Fixpoint join_dunder (parts : list string) : string :=
  match parts with
  | [] => EmptyString
  | [p] => p
  | p :: ps => p ++ "__" ++ join_dunder ps
  end.

(** [parts[-1]] on a non-empty list, [parts[:-1]] *)
Definition last_part (parts : list string) : string := last parts EmptyString.
Definition init_parts (parts : list string) : list string := removelast parts.

(* ================================================================== *)
(** ** Django's [Q] objects

    [django.db.models.Q] is a [django.utils.tree.Node]: a list of children,
    a connector and a negation flag, where a child is either a keyword pair
    [(key, value)] or another node.  The operations below follow
    [Node.add], [Q._combine], [Q.__and__], [Q.__or__] and [Q.__invert__] of
    the Django releases this module imports from ([get_model],
    [django.contrib.admin.util]: Django 1.7 and 1.8). *)

Inductive connector : Type := AND | OR.

Definition connector_eqb (a b : connector) : bool :=
  match a, b with
  | AND, AND | OR, OR => true
  | _, _ => false
  end.

Inductive Q : Type :=
| mkQ (children : list child) (conn : connector) (negated : bool)
with child : Type :=
| Leaf (key : string) (value : pyval)
| Sub (q : Q).

Definition children (q : Q) : list child := let (c, _, _) := q in c.
Definition conn (q : Q) : connector := let (_, c, _) := q in c.
Definition negated (q : Q) : bool := let (_, _, n) := q in n.

(** [Q()] *)
Definition Q_empty : Q := mkQ [] AND false.

(** [Q] built from one keyword pair, as [Q(key=value)] *)
Definition Q_kw (kv : string * pyval) : Q := mkQ [Leaf (fst kv) (snd kv)] AND false.

(** [Node.__bool__]: a node is true when it has children. *)
Definition Q_bool (q : Q) : bool :=
  match children q with [] => false | _ :: _ => true end.

(** The nesting of nodes. *)
Fixpoint depth (q : Q) : nat :=
  match q with
  | mkQ cs _ _ =>
      let fix deepest (cs : list child) : nat :=
        match cs with
        | [] => 0
        | Leaf _ _ :: cs' => deepest cs'
        | Sub q' :: cs' => Nat.max (depth q') (deepest cs')
        end in
      S (deepest cs)
  end.

(** [Node.add(data, conn_type)] with [data] a node.  The membership test
    [data in self.children] that opens the method compares objects by
    identity (these releases define no [__eq__] on nodes); every call made
    from this module passes a freshly built object, so the test is false
    and the method proceeds. *)
Definition Node_add (self data : Q) (conn_type : connector) : Q :=
  if connector_eqb (conn self) conn_type then
    if negb (negated data)
       && (connector_eqb (conn data) conn_type
           || Nat.eqb (length (children data)) 1)
    then mkQ (children self ++ children data)%list (conn self) (negated self)
    else mkQ (children self ++ [Sub data])%list (conn self) (negated self)
  else
    mkQ [Sub (mkQ (children self) (conn self) (negated self)); Sub data]
        conn_type (negated self).

(** [Q._combine(other, conn)] *)
Definition Q_combine (self other : Q) (c : connector) : Q :=
  let obj := mkQ [] c false in
  let obj := Node_add obj self c in
  Node_add obj other c.

Definition Q_and (a b : Q) : Q := Q_combine a b AND.
Definition Q_or (a b : Q) : Q := Q_combine a b OR.

(** [Q.__invert__] *)
Definition Q_invert (self : Q) : Q :=
  let obj := Node_add Q_empty self AND in
  mkQ (children obj) (conn obj) (negb (negated obj)).

(* ================================================================== *)
(** ** [Condition] *)

(** [Condition.OPERATORS], the keys in declaration order. *)
Definition OPERATORS : list string :=
  [ "iexact"; "icontains"; "in"; "gt"; "gte"; "lt"; "lte";
    "istartswith"; "iendswith"; "range"; "isnull"; "istrue"; "isfalse" ].

Definition is_operator (s : string) : bool :=
  existsb (String.eqb s) OPERATORS.

Record Condition : Type := mkCondition {
  field : string;
  operator : string;
  value : pyval;
  negate : bool;
  delete : bool
}.

(** [Condition.build_query_dict]: the single keyword pair of the row. *)
Definition build_query_dict (self : Condition) : string * pyval :=
  if String.eqb (operator self) "istrue" then (field self, VBool true)
  else if String.eqb (operator self) "isfalse" then (field self, VBool false)
  else
    let key := field self ++ "__" ++ operator self in
    if String.eqb (operator self) "isnull" then (key, VBool true)
    else (key, value self).

(** [Condition.make_query] *)
Definition make_query (self : Condition) : Q :=
  let query := Q_empty in
  let query_dict := build_query_dict self in
  if negate self
  then Q_and query (Q_invert (Q_kw query_dict))
  else Q_and query (Q_kw query_dict).

(* ================================================================== *)
(** ** [AdvancedFilterAdmin.generate_query] *)

(** The loop state: the accumulator [query] and the list [ORed]. *)
Definition loop_state : Type := (Q * list Q)%type.

Definition generate_query_step (st : loop_state) (condition : Condition)
  : loop_state :=
  let (query, ORed) := st in
  if negb (delete condition) then
    if String.eqb (field condition) "_OR"
    then (Q_empty, (ORed ++ [query])%list)
    else (Q_and query (make_query condition), ORed)
  else st.

Definition generate_query_loop (conditions : list Condition) : loop_state :=
  fold_left generate_query_step conditions (Q_empty, []).

(** After the loop.  With [ORed] empty the accumulator is returned.
    Otherwise the last group is appended when it holds a condition, and
    the call [reduce(operator.or_, ORed)] evaluates its arguments first:
    the name [operator] is bound nowhere in [admin.py] (the module imports
    [logging], [admin], [messages], [HttpResponseRedirect],
    [ugettext_lazy], [unquote], [resolve_url], the forms, the two models
    and [Q]) and is no builtin, so the lookup raises [NameError] before
    [reduce] is entered.  ([reduce] is a builtin of Python 2, which the
    package is written for; where it is none, its own lookup raises the
    same exception at the same place.) *)
Definition generate_query (conditions : list Condition) : result Q :=
  let (query, ORed) := generate_query_loop conditions in
  match ORed with
  | [] => OK query
  | _ :: _ =>
      let ORed := if Q_bool query then (ORed ++ [query])%list else ORed in
      Err NameError
  end.

(* ================================================================== *)
(** ** Row dictionaries

    The dictionaries that [list_fields] returns and [_parse_query_dict]
    updates have a fixed set of keys; a key that is absent is [None]. *)

Record row : Type := mkRow {
  row_field : string;
  row_operator : option string;
  row_value : option pyval;
  row_value_from : option pyval;
  row_value_to : option pyval;
  row_negate : option bool
}.

Definition set_field (f : string) (d : row) : row :=
  mkRow f (row_operator d) (row_value d) (row_value_from d) (row_value_to d)
        (row_negate d).

Definition set_operator (o : string) (d : row) : row :=
  mkRow (row_field d) (Some o) (row_value d) (row_value_from d) (row_value_to d)
        (row_negate d).

Definition set_value (v : pyval) (d : row) : row :=
  mkRow (row_field d) (row_operator d) (Some v) (row_value_from d)
        (row_value_to d) (row_negate d).

(** [d[key]]: a missing key raises [KeyError]. *)
Definition getitem {A : Type} (key : string) (o : option A) : result A :=
  match o with
  | Some a => OK a
  | None => Err (KeyError key)
  end.

(** [d.get(key, default)] *)
Definition get_default {A : Type} (o : option A) (default : A) : A :=
  match o with
  | Some a => a
  | None => default
  end.

(* ================================================================== *)
(** ** [AdvancedFilter._parse_query_dict]

    [resolves path] says whether [get_fields_from_path(model, path)] finds
    a field: the field catalog of the model is external to the module. *)

(** Lines 84-93: the operator suffix is taken off the field path. *)
Definition split_operator (query_data : row) : row :=
  let parts := split_dunder (row_field query_data) in
  if Nat.ltb (length parts) 2 then
    set_field (hd EmptyString parts) query_data
  else if is_operator (last_part parts) then
    set_field (join_dunder (init_parts parts))
              (set_operator (last_part parts) query_data)
  else
    set_field (row_field query_data) query_data.

(** Lines 102-109: [None], [True] and [False] decide the operator. *)
Definition normalize_value (query_data : row) : result row :=
  v <- getitem "value" (row_value query_data) ;;
  match v with
  | VNone => OK (set_operator "isnull" query_data)
  | VBool true => OK (set_value VNone (set_operator "istrue" query_data))
  | VBool false => OK (set_value VNone (set_operator "isfalse" query_data))
  | _ => OK query_data
  end.

(** Lines 118-121: a list value under [range].  The test reads the
    operator only when the value is a list.  The body then calls
    [dt.fromtimestamp]: the name [dt] is bound nowhere in [models.py]
    (the module imports [settings], [models], [Q], [get_model],
    [FieldDoesNotExist], [DateField], [get_fields_from_path],
    [ugettext_lazy] and [QSerializer]) and is no builtin, so the lookup
    raises [NameError] before the timestamps are read. *)
Definition normalize_range (query_data : row) : result row :=
  if is_list (get_default (row_value query_data) VNone) then
    op <- getitem "operator" (row_operator query_data) ;;
    if String.eqb op "range" then Err NameError
    else OK query_data
  else OK query_data.

Definition _parse_query_dict (resolves : string -> bool) (query_data : row)
  : result row :=
  if String.eqb (row_field query_data) "_OR" then
    OK (set_operator "iexact" query_data)
  else
    let query_data := split_operator query_data in
    if negb (resolves (row_field query_data)) then Err FieldPathError
    else
      query_data <- normalize_value query_data ;;
      normalize_range query_data.

(* ================================================================== *)
(** ** The Q serializer *)

(** Modelled from the spec: the class [QSerializer] of [q_serializer.py],
    which is not among the sources.  The spec leaves the token opaque:
    encoding is a function of the tree (so it is deterministic) and
    decoding may fail.  The raw dictionary that [loads(token, raw=True)]
    returns carries the children, the connector and the negation flag of
    each node, so it is read here as the tree itself. *)
Class QSerializer : Type := {
  serialize : Q -> string;
  deserialize : string -> option Q
}.

(** Modelled from the spec: the contract of the codec.  A token decodes
    back to the tree it was made from, and no tree is written as the empty
    token, which stands for no filter. *)
Record QSerializer_contract (S : QSerializer) : Prop := {
  deserialize_serialize : forall q, deserialize (serialize q) = Some q;
  serialize_nonempty : forall q, serialize q <> EmptyString
}.

(** [b64_query = models.CharField(max_length=2048)] *)
Definition b64_query_max_length : nat := 2048.

Section Serializer.

Context `{QSerializer}.

(** Modelled from the spec: [QSerializer.dumps].  The codec fails loudly
    rather than emit a token longer than the storage field's length
    budget. *)
Definition dumps (q : Q) : result string :=
  let token := serialize q in
  if Nat.ltb b64_query_max_length (String.length token)
  then Err BudgetExceededError
  else OK token.

(** Modelled from the spec: [QSerializer.loads].  An empty or absent
    token decodes to the empty tree, a malformed one is corrupt. *)
Definition loads (token : option string) : result Q :=
  match token with
  | None => OK Q_empty
  | Some EmptyString => OK Q_empty
  | Some t =>
      match deserialize t with
      | Some q => OK q
      | None => Err CorruptEncodingError
      end
  end.

End Serializer.

(** Modelled from the spec: the row that the raw flattening gives for one
    keyword pair: the stored key path, the value, the negation of the
    enclosing node, and the two endpoints of a composite value handed over
    separately. *)
Definition leaf_row (key : string) (v : pyval) (neg : bool) : row :=
  let endpoint (s : scalar) : pyval :=
    match s with SInt z => VInt z | SStr t => VStr t end in
  match v with
  | VList [a; b] =>
      mkRow key None (Some v) (Some (endpoint a)) (Some (endpoint b)) (Some neg)
  | _ => mkRow key None (Some v) None None (Some neg)
  end.

(** Modelled from the spec: the marker row between two groups. *)
Definition or_row : row := mkRow "_OR" None None None None None.

(** Modelled from the spec: [QSerializer.get_field_values_list], the raw
    flattening.  The rows of a tree are the rows of its children in
    order, with an [_OR] marker row at each boundary between the children
    of a disjunction (none before the first). *)
Fixpoint get_field_values_list (d : Q) : list row :=
  match d with
  | mkQ cs c neg =>
      let fix rows (cs : list child) : list row :=
        match cs with
        | [] => []
        | ch :: rest =>
            (match ch with
             | Leaf key v => [leaf_row key v neg]
             | Sub q => get_field_values_list q
             end
             ++ match rest, c with
                | _ :: _, OR => [or_row]
                | _, _ => []
                end
             ++ rows rest)%list
        end in
      rows cs
  end.

(* ================================================================== *)
(** ** [AdvancedFilter] *)

(** The attributes of a stored filter.  [b64_query] is [None] when the
    attribute holds no string. *)
Record AdvancedFilter : Type := mkAdvancedFilter {
  title : string;
  url : string;
  model : option string;
  b64_query : option string
}.

Definition set_b64_query (t : string) (self : AdvancedFilter) : AdvancedFilter :=
  mkAdvancedFilter (title self) (url self) (model self) (Some t).

(** What a caller may assign to the [query] property. *)
Inductive pyobj : Type :=
| PyQ (q : Q)
| PyVal (v : pyval).

Section StoredFilter.

Context `{QSerializer}.

(** [not self.b64_query] *)
Definition b64_query_falsy (self : AdvancedFilter) : bool :=
  match b64_query self with
  | None => true
  | Some EmptyString => true
  | Some _ => false
  end.

(** The [query] property: [None] when nothing is stored. *)
Definition query (self : AdvancedFilter) : result (option Q) :=
  if b64_query_falsy self then OK None
  else q <- loads (b64_query self) ;; OK (Some q).

(** The setter of [query]: the outcome and the instance afterwards. *)
Definition set_query (self : AdvancedFilter) (value : pyobj)
  : result unit * AdvancedFilter :=
  match value with
  | PyVal _ => (Err NotAQuery, self)
  | PyQ q =>
      match dumps q with
      | OK token => (OK tt, set_b64_query token self)
      | Err e => (Err e, self)
      end
  end.

(** [list_fields]: only the empty string short-cuts the serializer. *)
Definition list_fields (self : AdvancedFilter) : result (list row) :=
  match b64_query self with
  | Some EmptyString => OK []
  | token => d <- loads token ;; OK (get_field_values_list d)
  end.

(** [initialize_form] *)
Definition initialize_form (resolves : string -> bool)
  (self : AdvancedFilter) : result (list row) :=
  fields <- list_fields self ;;
  mapM (_parse_query_dict resolves) fields.

(** [AdvancedFilterAdmin.save_formset] on the conditions that the formset
    hands over: the outcome, the instance, and the stored record, which
    [save()] overwrites with the instance.  An exception raised by
    [generate_query] or by the assignment leaves the method before
    [save()] is reached. *)
Definition save_formset (self : AdvancedFilter)
  (stored : option AdvancedFilter) (conditions : list Condition)
  : result unit * AdvancedFilter * option AdvancedFilter :=
  match generate_query conditions with
  | Err e => (Err e, self, stored)
  | OK q =>
      match set_query self (PyQ q) with
      | (OK _, self) => (OK tt, self, Some self)
      | (Err e, self) => (Err e, self, stored)
      end
  end.

End StoredFilter.

(** Modelled from the spec: the edit form ([forms.py] is not among the
    sources) hands each initial row back as a [Condition] with the row's
    field, operator, value and negate flag and with [delete] unset; a key
    the row lacks takes the default of the model field. *)
Definition condition_of_row (r : row) : Condition :=
  mkCondition (row_field r)
              (get_default (row_operator r) "iexact")
              (get_default (row_value r) VNone)
              (get_default (row_negate r) false)
              false.

(* ================================================================== *)
(** ** A reference serializer

    One text format that meets the contract of [QSerializer]: a prefix
    code in which every number is written in binary and every string is
    preceded by its length.  Each printer takes the text that follows, so
    that the parser's answer on a printed value is the value and that
    text. *)

Module ReferenceSerializer.

Definition obind {A B : Type} (m : option A) (k : A -> option B) : option B :=
  match m with
  | Some a => k a
  | None => None
  end.

Fixpoint put_pos (p : positive) (rest : string) : string :=
  match p with
  | xH => String "." rest
  | xO p' => String "0" (put_pos p' rest)
  | xI p' => String "1" (put_pos p' rest)
  end.

Definition put_Z (z : Z) (rest : string) : string :=
  match z with
  | Z0 => String "z" rest
  | Zpos p => String "+" (put_pos p rest)
  | Zneg p => String "-" (put_pos p rest)
  end.

Definition put_nat (n : nat) (rest : string) : string :=
  put_Z (Z.of_nat n) rest.

Definition put_str (s rest : string) : string :=
  put_nat (String.length s) (s ++ rest).

Definition put_scalar (x : scalar) (rest : string) : string :=
  match x with
  | SInt z => String "i" (put_Z z rest)
  | SStr s => String "s" (put_str s rest)
  end.

Fixpoint put_scalars (l : list scalar) (rest : string) : string :=
  match l with
  | [] => rest
  | x :: l' => put_scalar x (put_scalars l' rest)
  end.

Definition put_val (v : pyval) (rest : string) : string :=
  match v with
  | VNone => String "N" rest
  | VBool true => String "T" rest
  | VBool false => String "F" rest
  | VInt z => String "I" (put_Z z rest)
  | VStr s => String "S" (put_str s rest)
  | VList l => String "L" (put_nat (length l) (put_scalars l rest))
  end.

Definition put_head (c : connector) (neg : bool) (rest : string) : string :=
  String (match c with AND => "&" | OR => "|" end)
         (String (if neg then "!" else "=") rest).

Fixpoint put_q (q : Q) (rest : string) : string :=
  match q with
  | mkQ cs c neg =>
      let fix put_children (cs : list child) : string :=
        match cs with
        | [] => rest
        | Leaf key v :: cs' =>
            String "l" (put_str key (put_val v (put_children cs')))
        | Sub q' :: cs' => String "q" (put_q q' (put_children cs'))
        end in
      put_head c neg (put_nat (length cs) (put_children cs))
  end.

Fixpoint get_pos (s : string) : option (positive * string) :=
  match s with
  | EmptyString => None
  | String c r =>
      if Ascii.eqb c "." then Some (xH, r)
      else if Ascii.eqb c "0" then
        obind (get_pos r) (fun '(p, r') => Some (xO p, r'))
      else if Ascii.eqb c "1" then
        obind (get_pos r) (fun '(p, r') => Some (xI p, r'))
      else None
  end.

Definition get_Z (s : string) : option (Z * string) :=
  match s with
  | EmptyString => None
  | String c r =>
      if Ascii.eqb c "z" then Some (Z0, r)
      else if Ascii.eqb c "+" then
        obind (get_pos r) (fun '(p, r') => Some (Zpos p, r'))
      else if Ascii.eqb c "-" then
        obind (get_pos r) (fun '(p, r') => Some (Zneg p, r'))
      else None
  end.

Definition get_nat (s : string) : option (nat * string) :=
  obind (get_Z s) (fun '(z, r) =>
    if Z.ltb z 0 then None else Some (Z.to_nat z, r)).

Fixpoint take (n : nat) (s : string) : option (string * string) :=
  match n with
  | O => Some (EmptyString, s)
  | S n' =>
      match s with
      | EmptyString => None
      | String c r => obind (take n' r) (fun '(t, r') => Some (String c t, r'))
      end
  end.

Definition get_str (s : string) : option (string * string) :=
  obind (get_nat s) (fun '(n, r) => take n r).

Definition get_scalar (s : string) : option (scalar * string) :=
  match s with
  | EmptyString => None
  | String c r =>
      if Ascii.eqb c "i" then obind (get_Z r) (fun '(z, r') => Some (SInt z, r'))
      else if Ascii.eqb c "s" then
        obind (get_str r) (fun '(t, r') => Some (SStr t, r'))
      else None
  end.

Fixpoint get_scalars (n : nat) (s : string) : option (list scalar * string) :=
  match n with
  | O => Some ([], s)
  | S n' =>
      obind (get_scalar s) (fun '(x, r) =>
      obind (get_scalars n' r) (fun '(l, r') => Some (x :: l, r')))
  end.

Definition get_val (s : string) : option (pyval * string) :=
  match s with
  | EmptyString => None
  | String c r =>
      if Ascii.eqb c "N" then Some (VNone, r)
      else if Ascii.eqb c "T" then Some (VBool true, r)
      else if Ascii.eqb c "F" then Some (VBool false, r)
      else if Ascii.eqb c "I" then
        obind (get_Z r) (fun '(z, r') => Some (VInt z, r'))
      else if Ascii.eqb c "S" then
        obind (get_str r) (fun '(t, r') => Some (VStr t, r'))
      else if Ascii.eqb c "L" then
        obind (get_nat r) (fun '(n, r') =>
        obind (get_scalars n r') (fun '(l, r'') => Some (VList l, r'')))
      else None
  end.

Definition get_head (s : string) : option ((connector * bool) * string) :=
  match s with
  | String c (String n r) =>
      obind (if Ascii.eqb c "&" then Some AND
             else if Ascii.eqb c "|" then Some OR else None) (fun c' =>
      obind (if Ascii.eqb n "!" then Some true
             else if Ascii.eqb n "=" then Some false else None) (fun n' =>
      Some ((c', n'), r)))
  | _ => None
  end.

(** The parser of trees takes fuel for the nesting of nodes. *)
Fixpoint get_q (fuel : nat) (s : string) : option (Q * string) :=
  match fuel with
  | O => None
  | S fuel' =>
      obind (get_head s) (fun '((c, neg), r) =>
      obind (get_nat r) (fun '(n, r') =>
      let fix get_children (n : nat) (s : string)
        : option (list child * string) :=
        match n with
        | O => Some ([], s)
        | S n' =>
            match s with
            | EmptyString => None
            | String t r =>
                if Ascii.eqb t "l" then
                  obind (get_str r) (fun '(key, r1) =>
                  obind (get_val r1) (fun '(v, r2) =>
                  obind (get_children n' r2) (fun '(cs, r3) =>
                  Some (Leaf key v :: cs, r3))))
                else if Ascii.eqb t "q" then
                  obind (get_q fuel' r) (fun '(q, r1) =>
                  obind (get_children n' r1) (fun '(cs, r2) =>
                  Some (Sub q :: cs, r2)))
                else None
            end
        end in
      obind (get_children n r') (fun '(cs, r'') => Some (mkQ cs c neg, r''))))
  end.

Definition print (q : Q) : string := put_q q EmptyString.

Definition parse (s : string) : option Q :=
  match get_q (S (String.length s)) s with
  | Some (q, EmptyString) => Some q
  | _ => None
  end.

End ReferenceSerializer.

Definition reference_serializer : QSerializer := {|
  serialize := ReferenceSerializer.print;
  deserialize := ReferenceSerializer.parse
|}.

(* ================================================================== *)
(** ** The runs that the loop of [generate_query] collects

    The rows that are not deleted are cut at the [_OR] markers; the loop
    keeps the conjunction of the open run in [query] and the conjunctions
    of the closed runs in [ORed]. *)

(** The runs of live conditions between live markers, given the run that
    is being collected; the last run is the one still open at the end. *)
Fixpoint segments_from (cur : list Condition) (rows : list Condition)
  : list (list Condition) :=
  match rows with
  | [] => [cur]
  | r :: rest =>
      if delete r then segments_from cur rest
      else if String.eqb (field r) "_OR" then cur :: segments_from [] rest
      else segments_from (cur ++ [r])%list rest
  end.

Definition segments (rows : list Condition) : list (list Condition) :=
  segments_from [] rows.

(** The conjunction of the comparisons of one group, in order. *)
Definition conjunction (g : list Condition) : Q :=
  fold_left (fun q c => Q_and q (make_query c)) g Q_empty.

(** A row that is compiled: neither deleted nor a marker. *)
Definition is_live_condition (c : Condition) : bool :=
  negb (delete c) && negb (String.eqb (field c) "_OR").

(** A marker that the loop meets: an [_OR] row that is not deleted. *)
Definition is_live_marker (c : Condition) : bool :=
  negb (delete c) && String.eqb (field c) "_OR".

(** The comparison of a row as the specification words it: the key is
    the field path with the operator appended and the value is the row's,
    except for the three operators that carry no value. *)
Inductive atomic_comparison (c : Condition) : string * pyval -> Prop :=
| cmp_istrue :
    operator c = "istrue" -> atomic_comparison c (field c, VBool true)
| cmp_isfalse :
    operator c = "isfalse" -> atomic_comparison c (field c, VBool false)
| cmp_isnull :
    operator c = "isnull" ->
    atomic_comparison c (field c ++ "__isnull", VBool true)
| cmp_valued :
    operator c <> "istrue" -> operator c <> "isfalse" ->
    operator c <> "isnull" ->
    atomic_comparison c (field c ++ "__" ++ operator c, value c).

(** The operator that a value forces on its row, if it forces one. *)
Definition forced_operator (v : pyval) : option string :=
  match v with
  | VNone => Some "isnull"
  | VBool true => Some "istrue"
  | VBool false => Some "isfalse"
  | _ => None
  end.

(* ================================================================== *)
(** ** Saving a filter and loading it for editing *)

(** [save_formset] followed by [_create_formsets] on the saved filter:
    the conditions are compiled and stored, the stored token is read back
    into rows by [initialize_form], and the rows are compiled again. *)
Definition save_and_reload `{QSerializer} (resolves : string -> bool)
  (self : AdvancedFilter) (conditions : list Condition) : result Q :=
  q <- generate_query conditions ;;
  let (outcome, self) := set_query self (PyQ q) in
  _ <- outcome ;;
  initial <- initialize_form resolves self ;;
  generate_query (map condition_of_row initial).

(** The keyword pairs of a tree in order, each with the negation of the
    node that holds it. *)
Fixpoint comparisons (q : Q) : list (string * pyval * bool) :=
  match q with
  | mkQ cs _ neg =>
      let fix of_children (cs : list child) : list (string * pyval * bool) :=
        match cs with
        | [] => []
        | Leaf key v :: cs' => (key, v, neg) :: of_children cs'
        | Sub q' :: cs' => (comparisons q' ++ of_children cs')%list
        end in
      of_children cs
  end.

(* ================================================================== *)
(** ** Conditions that a reload gives back

    The specification reserves the operator names: a field path is one
    whose last segment is not an operator name.  The conditions below are
    the ones whose comparison [_parse_query_dict] reads back as written: a
    flag ([istrue], [isfalse]), or another operator than [isnull] with a
    text value. *)

Fixpoint ends_with_underscore (s : string) : bool :=
  match s with
  | EmptyString => false
  | String c EmptyString => is_underscore c
  | String _ r => ends_with_underscore r
  end.

Definition field_path_ok (f : string) : bool :=
  negb (String.eqb f "_OR")
  && negb (ends_with_underscore f)
  && negb (is_operator (last_part (split_dunder f))).

Definition is_flag (op : string) : bool :=
  String.eqb op "istrue" || String.eqb op "isfalse".

Definition is_valued (op : string) : bool :=
  is_operator op && negb (is_flag op) && negb (String.eqb op "isnull").

Definition is_text (v : pyval) : bool :=
  match v with VStr _ => true | _ => false end.

Definition plain (resolves : string -> bool) (c : Condition) : bool :=
  field_path_ok (field c) && resolves (field c)
  && (is_flag (operator c) || (is_valued (operator c) && is_text (value c))).

(** The child that a condition puts into its conjunction. *)
Definition child_of (c : Condition) : child :=
  let (key, v) := build_query_dict c in
  if negate c then Sub (mkQ [Leaf key v] AND true) else Leaf key v.

(** The rows of the children of a node, as [get_field_values_list]
    collects them. *)
Fixpoint rows_of_children (c : connector) (neg : bool) (cs : list child)
  : list row :=
  match cs with
  | [] => []
  | ch :: rest =>
      (match ch with
       | Leaf key v => [leaf_row key v neg]
       | Sub q => get_field_values_list q
       end
       ++ match rest, c with
          | _ :: _, OR => [or_row]
          | _, _ => []
          end
       ++ rows_of_children c neg rest)%list
  end.

(** The row that the raw flattening gives for a condition. *)
Definition row_of (c : Condition) : row :=
  let (key, v) := build_query_dict c in leaf_row key v (negate c).

(** The row as [_parse_query_dict] returns it. *)
Definition parsed (c : Condition) : row :=
  mkRow (field c) (Some (operator c))
        (Some (if is_flag (operator c) then VNone else value c))
        None None (Some (negate c)).

(** The condition as the edit form shows it again: a flag has no value. *)
Definition reloaded (c : Condition) : Condition :=
  mkCondition (field c) (operator c)
              (if is_flag (operator c) then VNone else value c)
              (negate c) false.

(* ================================================================== *)
(** ** Rows and filters of the examples *)

Definition status_is (v : string) : Condition :=
  mkCondition "status" "iexact" (VStr v) false false.

Definition or_marker : Condition := mkCondition "_OR" "iexact" VNone false false.

Definition closed_at_is_null : Condition :=
  mkCondition "closed_at" "isnull" VNone false false.

(** The row of the range example: [created_at] under [range] with the two
    timestamps handed over separately. *)
Definition created_at_range : row :=
  mkRow "created_at" (Some "range")
        (Some (VList [SInt 1577836800; SInt 1580515200]))
        (Some (VInt 1577836800)) (Some (VInt 1580515200)) (Some false).

Definition blank_filter (token : option string) : AdvancedFilter :=
  mkAdvancedFilter "Open tickets" "/admin/tickets/ticket/" (Some "tickets.Ticket")
                   token.

Fixpoint letters (n : nat) : string :=
  match n with
  | O => EmptyString
  | S n' => String "a" (letters n')
  end.

(** 500 conditions, each with a value of 200 characters. *)
Definition five_hundred_conditions : list Condition :=
  repeat (mkCondition "name" "icontains" (VStr (letters 200)) false false) 500.

(* ================================================================== *)
(** ** Values that pass through [_parse_query_dict] *)

(** A value that [_parse_query_dict] passes on as it is: a text or a
    number. *)
Definition is_scalar_value (v : pyval) : bool :=
  match v with
  | VStr _ | VInt _ => true
  | _ => false
  end.

(* ================================================================== *)
(** ** The methods around the compiler

    [AdvancedListFilters.queryset] of [admin.py], and
    [AdvancedFilter.get_fields_from_model] and
    [AdvancedFilter.initialize_form] of [models.py] from their first line
    on.  They raise [AttributeError], which the methods above do not, and
    they call into Django: the queryset, the table of stored filters, the
    model lookup, the admin registry and the fields of a model are
    parameters. *)

Inductive pyexc : Type :=
| Exn (e : exn)
| AttributeError (attribute : string).

Inductive outcome (A : Type) : Type :=
| Returns (a : A)
| Raises (e : pyexc).

Arguments Returns {A} a.
Arguments Raises {A} e.

Definition outcome_of {A : Type} (r : result A) : outcome A :=
  match r with
  | OK a => Returns a
  | Err e => Raises (Exn e)
  end.

(** An entry of [advanced_filter_custom]: id, title and query. *)
Record custom_filter : Type := mkCustom {
  custom_id : string;
  custom_title : string;
  custom_query : Q
}.

(** The dictionary [{t[0]: t[2] for t in advanced_filter_custom}] looked
    up at a key: of two entries with one id the later one is kept. *)
Definition custom_queries (custom : list custom_filter) (value : string)
  : option Q :=
  fold_left (fun found t =>
               if String.eqb (custom_id t) value then Some (custom_query t)
               else found)
            custom None.

Section ListFilter.

Context `{QSerializer}.

(** [queryset.filter(query)], which may raise, [.distinct()], and
    [AdvancedFilter.objects.filter(id=value).first()]. *)
Variable QuerySet : Type.
Variable qs_filter : Q -> QuerySet -> outcome QuerySet.
Variable qs_distinct : QuerySet -> QuerySet.
Variable first_by_id : string -> outcome (option AdvancedFilter).

Definition filter_distinct (query : Q) (queryset : QuerySet)
  : outcome QuerySet :=
  match qs_filter query queryset with
  | Returns filtered => Returns (qs_distinct filtered)
  | Raises e => Raises e
  end.

(** [AdvancedListFilters.queryset], with [value] the parameter
    [_afilter] of the request ([self.value()]). *)
Definition AdvancedListFilters_queryset (custom : list custom_filter)
  (value : option string) (queryset : QuerySet) : outcome QuerySet :=
  match value with
  | None => Returns queryset
  | Some EmptyString => Returns queryset
  | Some value =>
      match custom_queries custom value with
      | Some query => filter_distinct query queryset
      | None =>
          match first_by_id value with
          | Raises e => Raises e
          | Returns None => Returns queryset
          | Returns (Some advfilter) =>
              match query advfilter with
              | Err e => Raises (Exn e)
              | OK None => Raises (AttributeError "__dict__")
              | OK (Some query) => filter_distinct query queryset
              end
          end
      end
  end.

End ListFilter.

(** [str.lower] and [str.capitalize] on ASCII text. *)
Definition ascii_lower (c : ascii) : ascii :=
  let n := nat_of_ascii c in
  if Nat.leb 65 n && Nat.leb n 90 then ascii_of_nat (n + 32) else c.

Definition ascii_upper (c : ascii) : ascii :=
  let n := nat_of_ascii c in
  if Nat.leb 97 n && Nat.leb n 122 then ascii_of_nat (n - 32) else c.

Fixpoint lower (s : string) : string :=
  match s with
  | EmptyString => EmptyString
  | String c r => String (ascii_lower c) (lower r)
  end.

Definition capitalize (s : string) : string :=
  match s with
  | EmptyString => EmptyString
  | String c r => String (ascii_upper c) (lower r)
  end.

(** [s.split('.')] *)
Fixpoint split_dot (s : string) : list string :=
  match s with
  | EmptyString => [EmptyString]
  | String c r =>
      if Ascii.eqb c "." then EmptyString :: split_dot r
      else cons_head c (split_dot r)
  end.

(** [sorted(l, key=key)]: the stable sort by the order of [str]. *)
Fixpoint insert_by {A : Type} (key : A -> string) (x : A) (l : list A)
  : list A :=
  match l with
  | [] => [x]
  | y :: l' =>
      if String.leb (key x) (key y) then x :: y :: l'
      else y :: insert_by key x l'
  end.

Fixpoint sorted_by {A : Type} (key : A -> string) (l : list A) : list A :=
  match l with
  | [] => []
  | x :: l' => insert_by key x (sorted_by key l')
  end.

(** [d[k] = v] on a dictionary kept as the list of its items. *)
Fixpoint dict_set (k v : string) (d : list (string * string))
  : list (string * string) :=
  match d with
  | [] => [(k, v)]
  | (k', v') :: d' =>
      if String.eqb k' k then (k, v) :: d' else (k', v') :: dict_set k v d'
  end.

Fixpoint dict_get (k : string) (d : list (string * string)) : option string :=
  match d with
  | [] => None
  | (k', v') :: d' => if String.eqb k' k then Some v' else dict_get k d'
  end.

(** An entry of [advanced_filter_fields]: a pair of a field and its
    label, or a field path whose label is looked up. *)
Inductive filter_field : Type :=
| FieldPair (name verbose_name : string)
| FieldName (name : string).

(** What a registered [ModelAdmin] shows of itself; an attribute it does
    not have is [None]. *)
Record ModelAdmin : Type := mkModelAdmin {
  advanced_filter_fields : option (list filter_field);
  has_advanced_filter : option bool
}.

(** [AdvancedFilter.FIELD_CHOICES] *)
Definition FIELD_CHOICES : list (string * string) :=
  [("_OR", "OR (mark an or between blocks)")].

Section ModelHelpers.

Context `{QSerializer}.

(** [get_model] on the parts of the name, [admin.site._registry], the
    verbose name of the last field on a path ([None] when the [try] block
    raises one of the exceptions that its [except] clause names), whether
    [get_fields_from_path] finds a field, and the order in which a
    dictionary hands out its items. *)
Variable Model : Type.
Variable get_model : list string -> outcome Model.
Variable registry : Model -> option ModelAdmin.
Variable verbose_name_of : Model -> string -> option string.
Variable resolves_in : Model -> string -> bool.
Variable items : list (string * string) -> list (string * string).

(** A bare entry whose path raises in the [try] block. *)
Definition unresolved (model : Model) (field : filter_field) : bool :=
  match field with
  | FieldPair _ _ => false
  | FieldName name =>
      match verbose_name_of model name with
      | Some _ => false
      | None => true
      end
  end.

(** One round of the loop of [get_fields_from_model].  For a bare entry
    whose path raises, the [except] branch calls [logger.warn] before its
    [continue]: the name [logger] is bound nowhere in [models.py] and is
    no builtin, so the branch raises [NameError] and the loop is left. *)
Definition collect_field (model : Model)
  (model_fields : list (string * string)) (field : filter_field)
  : outcome (list (string * string)) :=
  match field with
  | FieldPair name verbose_name =>
      Returns (dict_set name verbose_name model_fields)
  | FieldName name =>
      match verbose_name_of model name with
      | Some verbose_name => Returns (dict_set name verbose_name model_fields)
      | None => Raises (Exn NameError)
      end
  end.

(** The loop over the entries: a field named twice keeps its last label,
    and the first exception ends the loop. *)
Definition collect_fields (model : Model) (fields : list filter_field)
  : outcome (list (string * string)) :=
  fold_left (fun acc field =>
               match acc with
               | Returns model_fields => collect_field model model_fields field
               | Raises e => Raises e
               end)
            fields (Returns []).

(** [AdvancedFilter.get_fields_from_model].  When the model is not in
    the registry the [KeyError] is caught, and the [except] branch calls
    [logger.debug], which raises [NameError] as above. *)
Definition get_fields_from_model (self : AdvancedFilter)
  : outcome (list (string * string)) :=
  match model self with
  | None => Raises (AttributeError "split")
  | Some name =>
      match get_model (split_dot name) with
      | Raises e => Raises e
      | Returns model =>
          match registry model with
          | None => Raises (Exn NameError)
          | Some model_admin =>
              let filter_fields :=
                get_default (advanced_filter_fields model_admin) [] in
              match collect_fields model filter_fields with
              | Raises e => Raises e
              | Returns model_fields =>
                  let model_fields :=
                    map (fun f => (fst f, capitalize (snd f)))
                        (items model_fields) in
                  Returns (sorted_by (fun f => lower (snd f)) model_fields
                           ++ FIELD_CHOICES)%list
              end
          end
      end
  end.

(** [AdvancedFilter.initialize_form] from its first line: the model is
    looked up before the stored rows are read. *)
Definition initialize_form_of_model (self : AdvancedFilter)
  : outcome (list row) :=
  match model self with
  | None => Raises (AttributeError "split")
  | Some name =>
      match get_model (split_dot name) with
      | Raises e => Raises e
      | Returns model =>
          outcome_of (initialize_form (resolves_in model) self)
      end
  end.

End ModelHelpers.

(** The label that the entries give a field: the label of the last entry
    that names it, its own for a pair and the verbose name of the path for
    a bare entry. *)
Definition label_of (verbose_name_of : string -> option string)
  (fields : list filter_field) (name : string) : option string :=
  fold_left (fun found field =>
               match field with
               | FieldPair n v => if String.eqb n name then Some v else found
               | FieldName n =>
                   if String.eqb n name then verbose_name_of n else found
               end)
            fields None.


(* ================================================================== *)
(** ** A small site for the examples *)

(** A queryset that remembers the queries it was filtered by. *)
Definition example_filter (query : Q) (queryset : list Q) : outcome (list Q) :=
  Returns (query :: queryset).

Definition example_distinct (queryset : list Q) : list Q := queryset.

(** Stored filter 7 has an empty token, no other id is stored. *)
Definition example_first_by_id (value : string)
  : outcome (option AdvancedFilter) :=
  if String.eqb value "7" then Returns (Some (blank_filter (Some EmptyString)))
  else Returns None.

Definition example_custom : list custom_filter :=
  [ mkCustom "mine" "Mine" (Q_kw ("owner", VStr "me"));
    mkCustom "open" "Open" (Q_kw ("status__iexact", VStr "open"));
    mkCustom "mine" "Mine too" (Q_kw ("owner__iexact", VStr "me")) ].

Definition example_get_model (parts : list string) : outcome string :=
  Returns (join_dunder parts).

(** Two registered models: the entries of the first all resolve, the
    second names a path that does not. *)
Definition example_registry (target : string) : option ModelAdmin :=
  if String.eqb target "tickets__Ticket"
  then Some (mkModelAdmin
               (Some [ FieldName "status"; FieldPair "owner__name" "owner";
                       FieldName "colour"; FieldPair "status" "ticket state" ])
               (Some true))
  else if String.eqb target "blog__Post"
  then Some (mkModelAdmin
               (Some [ FieldPair "title" "headline"; FieldName "author__name";
                       FieldName "status" ])
               (Some true))
  else None.

Definition example_verbose_name (target path : string) : option string :=
  if String.eqb path "status" then Some "status"
  else if String.eqb path "colour" then Some "colour of the label"
  else None.

Definition example_items (d : list (string * string)) : list (string * string) :=
  d.

Definition example_resolves (target path : string) : bool := true.

(** A filter that stores the disjunction of two comparisons. *)
Definition example_stored : AdvancedFilter :=
  blank_filter
    (Some (ReferenceSerializer.print
             (Q_or (Q_kw ("status__iexact", VStr "open"))
                   (Q_kw ("status__iexact", VStr "pending"))))).

(* ================================================================== *)
(** * Properties *)

(** ** Induction over trees *)

Section Q_induction.

Variable P : Q -> Prop.

Hypothesis P_node : forall cs c neg,
  (forall q, In (Sub q) cs -> P q) -> P (mkQ cs c neg).

Lemma Q_induction : forall q, P q.
Proof.
  fix IH 1. intros [cs c neg]. apply P_node.
  induction cs as [|ch cs' IHcs]; intros q' Hin.
  - destruct Hin.
  - destruct Hin as [e | Hin].
    + destruct ch as [key v | q0]; [discriminate e|].
      injection e as e'. rewrite <- e'. apply IH.
    + apply IHcs, Hin.
Qed.

End Q_induction.

(** ** The reference serializer meets the contract *)

Module ReferenceSerializerFacts.

Import ReferenceSerializer.

Lemma length_append (s t : string) :
  String.length (s ++ t) = String.length s + String.length t.
Proof. induction s as [|c s IH]; simpl; [reflexivity | now rewrite IH]. Qed.

Lemma get_pos_put (p : positive) (rest : string) :
  get_pos (put_pos p rest) = Some (p, rest).
Proof. induction p as [p IH | p IH |]; simpl; now rewrite ?IH. Qed.

Lemma get_Z_put (z : Z) (rest : string) : get_Z (put_Z z rest) = Some (z, rest).
Proof. destruct z; simpl; now rewrite ?get_pos_put. Qed.

Lemma get_nat_put (n : nat) (rest : string) :
  get_nat (put_nat n rest) = Some (n, rest).
Proof.
  unfold get_nat, put_nat. rewrite get_Z_put. simpl.
  destruct (Z.ltb_spec (Z.of_nat n) 0) as [Hneg | _]; [lia|].
  now rewrite Nat2Z.id.
Qed.

Lemma take_append (s rest : string) :
  take (String.length s) (s ++ rest) = Some (s, rest).
Proof. induction s as [|c s IH]; simpl; now rewrite ?IH. Qed.

Lemma get_str_put (s rest : string) : get_str (put_str s rest) = Some (s, rest).
Proof. unfold get_str, put_str. rewrite get_nat_put. simpl. apply take_append. Qed.

Lemma get_scalar_put (x : scalar) (rest : string) :
  get_scalar (put_scalar x rest) = Some (x, rest).
Proof. destruct x; simpl; now rewrite ?get_Z_put, ?get_str_put. Qed.

Lemma get_scalars_put (l : list scalar) (rest : string) :
  get_scalars (length l) (put_scalars l rest) = Some (l, rest).
Proof.
  induction l as [|x l IH]; simpl; [reflexivity|].
  rewrite get_scalar_put. simpl. now rewrite IH.
Qed.

Lemma get_val_put (v : pyval) (rest : string) :
  get_val (put_val v rest) = Some (v, rest).
Proof.
  destruct v as [| [|] | z | s | l]; simpl;
    rewrite ?get_Z_put, ?get_str_put, ?get_nat_put; simpl;
    now rewrite ?get_scalars_put.
Qed.

Lemma get_head_put (c : connector) (neg : bool) (rest : string) :
  get_head (put_head c neg rest) = Some ((c, neg), rest).
Proof. now destruct c, neg. Qed.

(** Parsing what was printed gives the tree back, with fuel above its
    nesting. *)
Lemma get_q_put : forall (q : Q) (fuel : nat) (rest : string),
  depth q < fuel -> get_q fuel (put_q q rest) = Some (q, rest).
Proof.
  induction q as [cs c neg IH] using Q_induction. intros fuel rest Hfuel.
  destruct fuel as [|fuel]; [lia|].
  cbn [get_q put_q]. rewrite get_head_put. cbn [obind].
  rewrite get_nat_put. cbn [obind].
  cbn [depth] in Hfuel. apply PeanoNat.lt_S_n in Hfuel.
  match goal with
  | |- obind ?g _ = _ => assert (Hcs : g = Some (cs, rest)); [|now rewrite Hcs]
  end.
  revert Hfuel IH. induction cs as [|ch cs IHcs]; intros Hfuel IH.
  - reflexivity.
  - destruct ch as [key v | q'].
    + cbn [length]. cbn -[get_str get_val].
      rewrite get_str_put. cbn [obind].
      rewrite get_val_put. cbn [obind].
      rewrite IHcs; [reflexivity | exact Hfuel |].
      intros q Hin. apply IH. now right.
    + cbn [length]. cbn -[get_q put_q].
      rewrite (IH q'); [| now left | lia ].
      cbn [obind].
      rewrite IHcs; [reflexivity | lia |].
      intros q Hin. apply IH. now right.
Qed.

Lemma length_put_pos (p : positive) (rest : string) :
  String.length rest < String.length (put_pos p rest).
Proof. induction p; simpl; lia. Qed.

Lemma length_put_Z (z : Z) (rest : string) :
  String.length rest < String.length (put_Z z rest).
Proof. destruct z; simpl; try pose proof (length_put_pos p rest); lia. Qed.

Lemma length_put_str (s rest : string) :
  String.length rest < String.length (put_str s rest).
Proof.
  unfold put_str, put_nat.
  pose proof (length_put_Z (Z.of_nat (String.length s)) (s ++ rest)) as Hlt.
  rewrite length_append in Hlt. lia.
Qed.

Lemma length_put_scalars (l : list scalar) (rest : string) :
  String.length rest <= String.length (put_scalars l rest).
Proof.
  induction l as [|x l IH]; simpl; [lia|].
  destruct x as [z | s]; simpl.
  - pose proof (length_put_Z z (put_scalars l rest)). lia.
  - pose proof (length_put_str s (put_scalars l rest)). lia.
Qed.

Lemma length_put_val (v : pyval) (rest : string) :
  String.length rest < String.length (put_val v rest).
Proof.
  destruct v as [| [|] | z | s | l]; simpl; try lia.
  - pose proof (length_put_Z z rest). lia.
  - pose proof (length_put_str s rest). lia.
  - pose proof (length_put_Z (Z.of_nat (length l)) (put_scalars l rest)).
    pose proof (length_put_scalars l rest). unfold put_nat. lia.
Qed.

(** Every level of nesting costs at least one character. *)
Lemma length_put_q : forall (q : Q) (rest : string),
  String.length rest + depth q <= String.length (put_q q rest).
Proof.
  induction q as [cs c neg IH] using Q_induction. intros rest.
  cbn [put_q depth]. unfold put_head, put_nat. cbn [String.length].
  match goal with
  | |- _ <= S (S (String.length (put_Z _ ?body))) =>
      pose proof (length_put_Z (Z.of_nat (length cs)) body) as Hn;
      enough (Hbody : String.length rest
                      + (depth (mkQ cs c neg) - 1) <= String.length body)
        by (cbn [depth] in Hbody; lia)
  end.
  clear Hn. cbn [depth]. rewrite PeanoNat.Nat.sub_1_r. cbn [Nat.pred].
  induction cs as [|ch cs IHcs]; [simpl; lia|].
  assert (IH' : forall q, In (Sub q) cs ->
                forall rest, String.length rest + depth q
                             <= String.length (put_q q rest))
    by (intros q Hin; apply IH; now right).
  specialize (IHcs IH').
  destruct ch as [key v | q'].
  - cbn -[put_str put_val].
    match goal with
    | |- _ <= S (String.length (put_str key (put_val v ?body))) =>
        pose proof (length_put_str key (put_val v body));
        pose proof (length_put_val v body)
    end.
    cbn in IHcs. lia.
  - cbn -[put_q depth].
    match goal with
    | |- _ <= S (String.length (put_q q' ?body)) =>
        pose proof (IH q' (or_introl eq_refl) body)
    end.
    cbn in IHcs. lia.
Qed.

Lemma parse_print (q : Q) : parse (print q) = Some q.
Proof.
  unfold parse, print. rewrite get_q_put; [reflexivity|].
  pose proof (length_put_q q EmptyString). simpl in *. lia.
Qed.

Lemma print_nonempty (q : Q) : print q <> EmptyString.
Proof. destruct q as [cs c neg]. unfold print. cbn [put_q put_head]. discriminate. Qed.

End ReferenceSerializerFacts.

Lemma reference_serializer_contract : QSerializer_contract reference_serializer.
Proof.
  split; [apply ReferenceSerializerFacts.parse_print
         | apply ReferenceSerializerFacts.print_nonempty].
Qed.

(* ================================================================== *)
(** ** The compiler *)

Lemma conjunction_snoc (g : list Condition) (c : Condition) :
  conjunction (g ++ [c]) = Q_and (conjunction g) (make_query c).
Proof. unfold conjunction. now rewrite fold_left_app. Qed.

Lemma segments_from_not_nil (rows cur : list Condition) :
  segments_from cur rows <> [].
Proof.
  revert cur. induction rows as [|r rows IH]; intros cur; simpl.
  - discriminate.
  - destruct (delete r); [apply IH|].
    destruct (String.eqb (field r) "_OR"); [discriminate | apply IH].
Qed.

Lemma last_cons_not_nil {A : Type} (a d : A) (l : list A) :
  l <> [] -> last (a :: l) d = last l d.
Proof. destruct l; [congruence | reflexivity]. Qed.

Lemma removelast_cons_not_nil {A : Type} (a : A) (l : list A) :
  l <> [] -> removelast (a :: l) = a :: removelast l.
Proof. destruct l; [congruence | reflexivity]. Qed.

(** The loop of [generate_query] collects the runs of [segments_from]:
    the accumulator is the conjunction of the open run and [ORed] holds
    the conjunctions of the closed ones, empty runs included. *)
Lemma generate_query_loop_segments :
  forall (rows cur : list Condition) (ORed : list Q),
    fold_left generate_query_step rows (conjunction cur, ORed)
    = (conjunction (last (segments_from cur rows) []),
       (ORed ++ map conjunction (removelast (segments_from cur rows)))%list).
Proof.
  induction rows as [|r rows IH]; intros cur ORed.
  - simpl. now rewrite app_nil_r.
  - cbn [fold_left segments_from generate_query_step].
    destruct (delete r); cbn [negb].
    + apply IH.
    + destruct (String.eqb (field r) "_OR").
      * change Q_empty with (conjunction []). rewrite IH.
        pose proof (segments_from_not_nil rows []) as Hne.
        rewrite last_cons_not_nil, removelast_cons_not_nil by exact Hne.
        cbn [map]. now rewrite <- app_assoc.
      * rewrite <- conjunction_snoc. apply IH.
Qed.

(** A live marker closes a run. *)
Lemma segments_from_marker (rows cur : list Condition) :
  existsb is_live_marker rows = true ->
  removelast (segments_from cur rows) <> [].
Proof.
  revert cur. induction rows as [|r rows IH]; intros cur; [discriminate|].
  cbn [existsb segments_from]. unfold is_live_marker at 1.
  destruct (delete r); cbn [negb andb orb]; [apply IH|].
  destruct (String.eqb (field r) "_OR"); cbn [orb]; [|apply IH].
  intros _. rewrite removelast_cons_not_nil by apply segments_from_not_nil.
  discriminate.
Qed.

(** With no live marker there is one run: the rows that are compiled. *)
Lemma segments_from_no_marker (rows cur : list Condition) :
  existsb is_live_marker rows = false ->
  segments_from cur rows = [(cur ++ filter is_live_condition rows)%list].
Proof.
  revert cur. induction rows as [|r rows IH]; intros cur Hno.
  - cbn. now rewrite app_nil_r.
  - cbn [existsb] in Hno. apply orb_false_iff in Hno as [Hr Hrows].
    unfold is_live_marker in Hr. unfold is_live_condition at 1.
    cbn [segments_from filter]. destruct (delete r); cbn [negb andb] in *.
    + now apply IH.
    + rewrite Hr. cbn [negb]. rewrite IH by exact Hrows.
      now rewrite <- app_assoc.
Qed.

(** What [generate_query] does after the loop, in terms of the runs. *)
Lemma generate_query_unfold (rows : list Condition) :
  generate_query rows
  = match removelast (segments rows) with
    | [] => OK (conjunction (last (segments rows) []))
    | _ :: _ => Err NameError
    end.
Proof.
  unfold generate_query, generate_query_loop, segments.
  change Q_empty with (conjunction []) at 1.
  rewrite generate_query_loop_segments. cbn [app].
  now destruct (removelast (segments_from [] rows)).
Qed.

(** [generate_query] in one equation: a live marker among the rows makes
    it raise, and without one it returns the conjunction of the rows that
    are compiled. *)
Lemma generate_query_cases (rows : list Condition) :
  generate_query rows
  = if existsb is_live_marker rows then Err NameError
    else OK (conjunction (filter is_live_condition rows)).
Proof.
  rewrite generate_query_unfold. unfold segments.
  destruct (existsb is_live_marker rows) eqn:Hmarker.
  - pose proof (@segments_from_marker rows [] Hmarker) as Hne.
    now destruct (removelast (segments_from [] rows)).
  - now rewrite (@segments_from_no_marker rows [] Hmarker).
Qed.

(** Rows marked for deletion are skipped by the loop. *)
Lemma generate_query_step_delete (st : loop_state) (c : Condition) :
  delete c = true -> generate_query_step st c = st.
Proof. intros Hd. destruct st as [q ORed]. simpl. now rewrite Hd. Qed.

Lemma generate_query_loop_skips_deleted (rows : list Condition) :
  forall st,
    fold_left generate_query_step rows st
    = fold_left generate_query_step
        (filter (fun c => negb (delete c)) rows) st.
Proof.
  induction rows as [|c rows IH]; intros st; [reflexivity|].
  cbn [fold_left filter]. destruct (delete c) eqn:Hd; cbn [negb].
  - rewrite generate_query_step_delete by exact Hd. apply IH.
  - cbn [fold_left]. apply IH.
Qed.

(** The outcome is the outcome on the rows that are not deleted. *)
Lemma generate_query_skips_deleted (rows : list Condition) :
  generate_query rows
  = generate_query (filter (fun c => negb (delete c)) rows).
Proof.
  unfold generate_query, generate_query_loop.
  now rewrite generate_query_loop_skips_deleted.
Qed.

(** A live marker closes the accumulator whatever it holds. *)
Lemma generate_query_step_marker (q : Q) (ORed : list Q) (c : Condition) :
  delete c = false -> field c = "_OR" ->
  generate_query_step (q, ORed) c = (Q_empty, (ORed ++ [q])%list).
Proof. intros Hd Hf. simpl. now rewrite Hd, Hf. Qed.

(** C2 (code at a failing input): on the rows of the grouping example,
    [status equals "open", _OR, status equals "pending"], the loop ends
    with the first comparison in [ORed] and the second in the accumulator,
    and [generate_query] raises [NameError] on the name [operator] instead
    of returning their disjunction.  For every sequence, one live marker
    among the rows makes the method raise; with none it returns the
    conjunction of the rows that are not deleted, which for no such row is
    the empty [Q]. *)
Theorem C2_generate_query_marker_raises :
  generate_query_loop [status_is "open"; or_marker; status_is "pending"]
  = (mkQ [Leaf "status__iexact" (VStr "pending")] AND false,
     [mkQ [Leaf "status__iexact" (VStr "open")] AND false])
  /\ generate_query [status_is "open"; or_marker; status_is "pending"]
     = Err NameError
  /\ (forall rows : list Condition,
        generate_query rows
        = if existsb is_live_marker rows then Err NameError
          else OK (conjunction (filter is_live_condition rows)))
  /\ generate_query [] = OK Q_empty
  /\ generate_query [status_is "open"; status_is "pending"]
     = OK (mkQ [Leaf "status__iexact" (VStr "open");
                Leaf "status__iexact" (VStr "pending")] AND false).
Proof.
  split; [reflexivity|]. split; [reflexivity|].
  split; [apply generate_query_cases|]. split; reflexivity.
Qed.

(** C3 (code at failing inputs): a marker met while the accumulator is
    empty is not a no-op.  Every live marker appends the accumulator to
    [ORed] whatever it holds: after a leading marker, and after the second
    of two markers in a row, [ORed] holds an empty [Q] among the completed
    groups.  No tree comes of these rows: with [ORed] not empty the method
    raises [NameError]. *)
Theorem C3_marker_pushes_empty_group :
  (forall (query : Q) (ORed : list Q) (op : string) (v : pyval) (neg : bool),
     generate_query_step (query, ORed) (mkCondition "_OR" op v neg false)
     = (Q_empty, (ORed ++ [query])%list))
  /\ generate_query_loop [or_marker] = (Q_empty, [Q_empty])
  /\ generate_query_loop [or_marker; status_is "open"]
     = (mkQ [Leaf "status__iexact" (VStr "open")] AND false, [Q_empty])
  /\ generate_query_loop
       [status_is "open"; or_marker; or_marker; status_is "pending"]
     = (mkQ [Leaf "status__iexact" (VStr "pending")] AND false,
        [mkQ [Leaf "status__iexact" (VStr "open")] AND false; Q_empty])
  /\ generate_query_loop [status_is "open"; or_marker]
     = (Q_empty, [mkQ [Leaf "status__iexact" (VStr "open")] AND false])
  /\ Q_bool Q_empty = false
  /\ generate_query [or_marker; status_is "open"] = Err NameError
  /\ generate_query
       [status_is "open"; or_marker; or_marker; status_is "pending"]
     = Err NameError.
Proof. repeat split. Qed.

(** C8: the comparison of a condition is one keyword pair, [field__operator]
    with the row's value, except that [istrue] and [isfalse] give the bare
    field with [True] and [False] and [isnull] gives [field__isnull] with
    [True]; [make_query] returns that comparison as it is, or, with the
    negate flag, the conjunction whose one member is its negation. *)
Theorem C8_make_query_comparison (c : Condition) :
  atomic_comparison c (build_query_dict c)
  /\ Q_invert (Q_kw (build_query_dict c))
     = mkQ [Leaf (fst (build_query_dict c)) (snd (build_query_dict c))] AND true
  /\ make_query c
     = if negate c
       then mkQ [Sub (Q_invert (Q_kw (build_query_dict c)))] AND false
       else Q_kw (build_query_dict c).
Proof.
  split; [|split].
  - unfold build_query_dict.
    destruct (String.eqb_spec (operator c) "istrue") as [Ht | Ht];
      [now constructor|].
    destruct (String.eqb_spec (operator c) "isfalse") as [Hf | Hf];
      [now constructor|].
    destruct (String.eqb_spec (operator c) "isnull") as [Hn | Hn].
    + rewrite Hn. now constructor.
    + now constructor.
  - reflexivity.
  - unfold make_query. now destruct (negate c).
Qed.

(* ================================================================== *)
(** ** Splitting the operator off a key path *)

Lemma cons_head_not_nil (c : ascii) (parts : list string) :
  cons_head c parts <> [].
Proof. destruct parts; discriminate. Qed.

Lemma split_dunder_not_nil (s : string) : split_dunder s <> [].
Proof.
  destruct s as [|c [|c2 r2]]; [discriminate | apply cons_head_not_nil |].
  cbn [split_dunder].
  destruct (is_underscore c && is_underscore c2);
    [discriminate | apply cons_head_not_nil].
Qed.

Lemma join_cons_head (c : ascii) (parts : list string) :
  parts <> [] -> join_dunder (cons_head c parts) = String c (join_dunder parts).
Proof. destruct parts as [|p [|p' ps]]; [congruence | reflexivity | reflexivity]. Qed.

Lemma is_underscore_eq (c : ascii) : is_underscore c = true -> c = "_"%char.
Proof. apply Ascii.eqb_eq. Qed.

(** Joining the parts of a split gives the string back. *)
Lemma join_split_dunder (s : string) : join_dunder (split_dunder s) = s.
Proof.
  enough (H : join_dunder (split_dunder s) = s
              /\ forall c, join_dunder (split_dunder (String c s)) = String c s)
    by apply H.
  induction s as [|c2 r2 [IH1 IH2]].
  - split; [reflexivity | intros c; reflexivity].
  - split; [apply IH2|]. intros c. cbn [split_dunder].
    destruct (is_underscore c && is_underscore c2) eqn:Hus.
    + apply andb_true_iff in Hus as [Hc Hc2].
      apply is_underscore_eq in Hc, Hc2. subst.
      pose proof (split_dunder_not_nil r2) as Hne.
      destruct (split_dunder r2) as [|p ps] eqn:Hs; [congruence|].
      change (join_dunder (EmptyString :: p :: ps))
        with ("__" ++ join_dunder (p :: ps)).
      now rewrite IH1.
    + change (match r2 with
              | EmptyString => cons_head c2 (split_dunder r2)
              | String c3 r3 =>
                  if is_underscore c2 && is_underscore c3
                  then EmptyString :: split_dunder r3
                  else cons_head c2 (split_dunder r2)
              end) with (split_dunder (String c2 r2)).
      rewrite join_cons_head by apply split_dunder_not_nil.
      now rewrite IH2.
Qed.



(** The operator names, one by one. *)
Lemma is_operator_cases (op : string) :
  is_operator op = true -> In op OPERATORS.
Proof.
  unfold is_operator. intros H. apply existsb_exists in H as (x & Hin & Heq).
  apply String.eqb_eq in Heq. now subst.
Qed.

Lemma set_field_same (d : row) : set_field (row_field d) d = d.
Proof. now destruct d. Qed.

(** A key path of one segment is that segment. *)
Lemma split_dunder_single (s p : string) : split_dunder s = [p] -> p = s.
Proof. intros Hs. rewrite <- (join_split_dunder s), Hs. reflexivity. Qed.

(** The split in one equation: the suffix is taken off exactly when the
    key path has two segments or more and the last is an operator name. *)
Lemma split_operator_cases (d : row) :
  let parts := split_dunder (row_field d) in
  split_operator d
  = (if Nat.leb 2 (length parts) && is_operator (last_part parts)
     then set_field (join_dunder (init_parts parts))
                    (set_operator (last_part parts) d)
     else d).
Proof.
  cbn zeta. unfold split_operator.
  pose proof (split_dunder_not_nil (row_field d)) as Hne.
  destruct (split_dunder (row_field d)) as [|p [|q parts]] eqn:Hparts;
    [congruence | |].
  - cbn. apply split_dunder_single in Hparts. subst p. apply set_field_same.
  - cbn [length Nat.ltb Nat.leb andb].
    destruct (is_operator (last_part (p :: q :: parts)));
      [reflexivity | apply set_field_same].
Qed.




(* ================================================================== *)
(** ** Normalising a row *)

Lemma split_operator_value (d : row) :
  row_value (split_operator d) = row_value d
  /\ row_value_from (split_operator d) = row_value_from d
  /\ row_value_to (split_operator d) = row_value_to d.
Proof.
  unfold split_operator.
  destruct (Nat.ltb _ 2); [now destruct d|].
  destruct (is_operator _); now destruct d.
Qed.

(** A row that is not the marker goes through the three steps in order. *)
Lemma parse_query_dict_steps (resolves : string -> bool)
  (d : row) :
  row_field d <> "_OR" ->
  resolves (row_field (split_operator d)) = true ->
  _parse_query_dict resolves d
  = (d' <- normalize_value (split_operator d) ;; normalize_range d').
Proof.
  intros Hf Hres. unfold _parse_query_dict.
  apply String.eqb_neq in Hf. now rewrite Hf, Hres.
Qed.

(** C5: lines 102-109 on every row that has a value.  A null value gives
    the row the operator [isnull], [True] gives it [istrue] and [False]
    gives it [isfalse], whatever operator the row came with, and the row is
    left with the value [None]; nothing else of the row changes.  In
    [_parse_query_dict] every row reaches these lines that is not the
    [_OR] marker, returned at the first line, and whose field path
    resolves; such a row is returned with the forced operator and no
    value. *)
Theorem C5_value_forces_operator (d : row) (v : pyval) (op : string) :
  row_value d = Some v ->
  forced_operator v = Some op ->
  (exists d',
     normalize_value d = OK d'
     /\ row_operator d' = Some op
     /\ row_value d' = Some VNone
     /\ row_field d' = row_field d
     /\ row_negate d' = row_negate d
     /\ row_value_from d' = row_value_from d
     /\ row_value_to d' = row_value_to d)
  /\ forall resolves : string -> bool,
       row_field d <> "_OR" ->
       resolves (row_field (split_operator d)) = true ->
       exists d',
         _parse_query_dict resolves d = OK d'
         /\ row_operator d' = Some op
         /\ row_value d' = Some VNone
         /\ row_field d' = row_field (split_operator d).
Proof.
  intros Hv Hop. split.
  - unfold normalize_value. rewrite Hv. cbn [getitem bind].
    destruct v as [| [|] | z | s | l]; try discriminate Hop;
      injection Hop as <-; eexists; (split; [reflexivity|]);
      repeat split; exact Hv.
  - intros resolves Hf Hres. rewrite parse_query_dict_steps by assumption.
    destruct (split_operator_value d) as [Hval _]. rewrite Hv in Hval.
    unfold normalize_value. rewrite Hval. cbn [getitem bind].
    destruct v as [| [|] | z | s | l]; try discriminate Hop;
      injection Hop as <-; cbn [bind]; unfold normalize_range; cbn;
      try rewrite Hval; cbn; eexists; repeat split; eauto.
Qed.

Lemma C5_value_forces_operator_witness :
  let d := mkRow "age__gt" (Some "lte") (Some (VBool false)) None None
                 (Some false) in
  (row_value d = Some (VBool false)
   /\ forced_operator (VBool false) = Some "isfalse"
   /\ row_field d <> "_OR"
   /\ row_field (split_operator d) = "age")
  /\ normalize_value d
     = OK (mkRow "age__gt" (Some "isfalse") (Some VNone) None None (Some false))
  /\ _parse_query_dict (fun _ => true) d
     = OK (mkRow "age" (Some "isfalse") (Some VNone) None None (Some false)).
Proof.
  cbn zeta. split; [repeat split; discriminate|].
  destruct (@C5_value_forces_operator
              (mkRow "age__gt" (Some "lte") (Some (VBool false)) None None
                     (Some false))
              (VBool false) "isfalse" eq_refl eq_refl)
    as [(d1 & Hstep & _) Hparse].
  destruct (Hparse (fun _ => true)) as (d2 & Hrun & _);
    [discriminate | reflexivity|].
  split.
  - rewrite Hstep. cbn in Hstep. injection Hstep as <-. reflexivity.
  - rewrite Hrun. cbn in Hrun. injection Hrun as <-. reflexivity.
Defined.

(* ================================================================== *)
(** ** A list value under [range] *)

(** A row that reaches lines 118-121 with a list value and the operator
    [range] never leaves them with a value: the call raises. *)
Lemma parse_query_dict_range (resolves : string -> bool) (d : row)
  (items : list scalar) :
  row_field d <> "_OR" ->
  resolves (row_field (split_operator d)) = true ->
  row_value d = Some (VList items) ->
  row_operator (split_operator d) = Some "range" ->
  _parse_query_dict resolves d = Err NameError.
Proof.
  intros Hf Hres Hv Hop. rewrite parse_query_dict_steps by assumption.
  destruct (split_operator_value d) as [Hval _]. rewrite Hv in Hval.
  unfold normalize_value. rewrite Hval. cbn [getitem bind].
  unfold normalize_range. rewrite Hval, Hop. reflexivity.
Qed.

(** C6 (code at a failing input): the row of the example, [created_at]
    under [range] with a list value and the two timestamps handed over
    separately, is not given the text ["2020-01-01,2020-02-01"]: the call
    raises [NameError] on the name [dt].  So does the row as the raw
    flattening hands it over, with the operator still in the key path,
    and so does every row that is not the marker, whose field resolves and
    that has a list value under [range]; no such row is ever returned. *)
Theorem C6_range_raises_name_error :
  _parse_query_dict (fun _ => true) created_at_range = Err NameError
  /\ _parse_query_dict (fun _ => true)
       (leaf_row "created_at__range"
                 (VList [SInt 1577836800; SInt 1580515200]) false)
     = Err NameError
  /\ (forall (resolves : string -> bool) (d : row) (items : list scalar),
        row_field d <> "_OR" ->
        resolves (row_field (split_operator d)) = true ->
        row_value d = Some (VList items) ->
        row_operator (split_operator d) = Some "range" ->
        _parse_query_dict resolves d = Err NameError)
  /\ (forall (resolves : string -> bool) (d d' : row) (items : list scalar),
        row_field d <> "_OR" ->
        row_value d = Some (VList items) ->
        row_operator (split_operator d) = Some "range" ->
        _parse_query_dict resolves d <> OK d').
Proof.
  split; [reflexivity|]. split; [reflexivity|].
  split; [apply parse_query_dict_range|].
  intros resolves d d' items Hf Hv Hop.
  destruct (resolves (row_field (split_operator d))) eqn:Hres.
  - rewrite (parse_query_dict_range resolves d Hf Hres Hv Hop). discriminate.
  - unfold _parse_query_dict. apply String.eqb_neq in Hf.
    rewrite Hf, Hres. discriminate.
Qed.

(* ================================================================== *)
(** ** The stored filter *)

(** C9: with an empty or absent token neither accessor raises; [query] is
    [None] and [list_fields] is the empty list of rows. *)
Theorem C9_empty_token (S : QSerializer) (self : AdvancedFilter) :
  b64_query self = None \/ b64_query self = Some EmptyString ->
  query self = OK None /\ list_fields self = OK [].
Proof.
  intros [Htok | Htok]; unfold query, list_fields, b64_query_falsy;
    rewrite Htok; split; reflexivity.
Qed.

Lemma C9_empty_token_witness :
  (b64_query (blank_filter (Some EmptyString)) = None
   \/ b64_query (blank_filter (Some EmptyString)) = Some EmptyString)
  /\ @query reference_serializer (blank_filter (Some EmptyString)) = OK None
  /\ @list_fields reference_serializer (blank_filter (Some EmptyString)) = OK [].
Proof.
  split; [right; reflexivity|].
  apply (@C9_empty_token reference_serializer (blank_filter (Some EmptyString))).
  right; reflexivity.
Defined.

(** C10: assigning anything that is not a [Q] raises and leaves the
    instance as it was; assigning a [Q] stores the token that the
    serializer returns for it, and nothing else of the instance changes. *)
Theorem C10_set_query (S : QSerializer) (self : AdvancedFilter) :
  (forall v : pyval, set_query self (PyVal v) = (Err NotAQuery, self))
  /\ (forall (q : Q) (token : string),
        dumps q = OK token ->
        set_query self (PyQ q)
        = (OK tt, mkAdvancedFilter (title self) (url self) (model self)
                                   (Some token))).
Proof.
  split; [reflexivity|]. intros q token Hd. unfold set_query. now rewrite Hd.
Qed.

Lemma C10_set_query_witness :
  @dumps reference_serializer (Q_kw ("status__iexact", VStr "open"))
  = OK "&=+.l+011.status__iexactS+00.open"
  /\ @set_query reference_serializer (blank_filter (Some "old"))
       (PyVal (VStr "status=open"))
     = (Err NotAQuery, blank_filter (Some "old"))
  /\ @set_query reference_serializer (blank_filter (Some "old"))
       (PyQ (Q_kw ("status__iexact", VStr "open")))
     = (OK tt, blank_filter (Some "&=+.l+011.status__iexactS+00.open")).
Proof.
  split; [reflexivity|].
  destruct (@C10_set_query reference_serializer (blank_filter (Some "old")))
    as [Hother Hq].
  split; [apply Hother | apply Hq; reflexivity].
Defined.

(** C4: a tree whose token would be longer than the 2048 characters of
    [b64_query] is refused when it is encoded: the assignment raises
    [BudgetExceededError] and the instance, its stored token included, is
    as it was; [save_formset] raises with it before the record is saved. *)
Theorem C4_over_budget_is_refused (S : QSerializer) (self : AdvancedFilter)
  (q : Q) :
  b64_query_max_length < String.length (serialize q) ->
  dumps q = Err BudgetExceededError
  /\ set_query self (PyQ q) = (Err BudgetExceededError, self)
  /\ forall (stored : option AdvancedFilter) (conditions : list Condition),
       generate_query conditions = OK q ->
       save_formset self stored conditions
       = (Err BudgetExceededError, self, stored).
Proof.
  intros Hlong. apply Nat.ltb_lt in Hlong.
  assert (Hset : set_query self (PyQ q) = (Err BudgetExceededError, self))
    by (unfold set_query, dumps; now rewrite Hlong).
  split; [unfold dumps; now rewrite Hlong|]. split; [exact Hset|].
  intros stored conditions Hq. unfold save_formset. now rewrite Hq, Hset.
Qed.

(** What [set_query] stores is the whole token, within the budget. *)
Lemma set_query_stores_whole_token (S : QSerializer)
  (self self' : AdvancedFilter) (q : Q) :
  set_query self (PyQ q) = (OK tt, self') ->
  b64_query self' = Some (serialize q)
  /\ String.length (serialize q) <= b64_query_max_length.
Proof.
  unfold set_query, dumps.
  destruct (Nat.ltb_spec b64_query_max_length (String.length (serialize q)));
    [discriminate|].
  intros E. injection E as <-. split; [reflexivity | assumption].
Qed.

Lemma C4_over_budget_is_refused_witness :
  generate_query five_hundred_conditions
  = OK (conjunction five_hundred_conditions)
  /\ Nat.ltb b64_query_max_length
             (String.length
                (@serialize reference_serializer
                   (conjunction five_hundred_conditions))) = true
  /\ @set_query reference_serializer (blank_filter (Some "old"))
       (PyQ (conjunction five_hundred_conditions))
     = (Err BudgetExceededError, blank_filter (Some "old"))
  /\ @save_formset reference_serializer (blank_filter (Some "old"))
       (Some (blank_filter (Some "old"))) five_hundred_conditions
     = (Err BudgetExceededError, blank_filter (Some "old"),
        Some (blank_filter (Some "old"))).
Proof.
  assert (Hq : generate_query five_hundred_conditions
               = OK (conjunction five_hundred_conditions))
    by (vm_compute; reflexivity).
  assert (Hlong : Nat.ltb b64_query_max_length
                    (String.length
                       (@serialize reference_serializer
                          (conjunction five_hundred_conditions))) = true)
    by (vm_compute; reflexivity).
  split; [exact Hq|]. split; [exact Hlong|].
  destruct (@C4_over_budget_is_refused reference_serializer
              (blank_filter (Some "old"))
              (conjunction five_hundred_conditions))
    as (_ & Hset & Hsave); [apply Nat.ltb_lt; exact Hlong|].
  split; [exact Hset | apply Hsave; exact Hq].
Defined.

(* ================================================================== *)
(** ** Saving and reloading *)

(** A token written by [dumps] is read back by [loads] as the tree. *)
Lemma loads_dumps (S : QSerializer) (q : Q) (token : string) :
  QSerializer_contract S ->
  dumps q = OK token -> loads (Some token) = OK q.
Proof.
  intros [Hrt Hne]. unfold dumps, loads.
  destruct (Nat.ltb b64_query_max_length (String.length (serialize q)));
    [discriminate|].
  intros E. injection E as <-.
  specialize (Hne q). specialize (Hrt q).
  destruct (serialize q) as [|a t]; [congruence|]. now rewrite Hrt.
Qed.

Lemma list_fields_after_set_query (S : QSerializer)
  (self self' : AdvancedFilter) (q : Q) :
  QSerializer_contract S ->
  set_query self (PyQ q) = (OK tt, self') ->
  list_fields self' = OK (get_field_values_list q).
Proof.
  intros HS. unfold set_query.
  destruct (dumps q) as [token | e] eqn:Hd; [|discriminate].
  intros E. injection E as <-.
  pose proof (loads_dumps q HS Hd) as Hl.
  unfold list_fields, set_b64_query. cbn [b64_query].
  destruct token as [|a t].
  - unfold dumps in Hd.
    destruct (Nat.ltb _ _); [discriminate|]. injection Hd as Hd.
    now apply (serialize_nonempty HS) in Hd.
  - now rewrite Hl.
Qed.

(** What is saved and reloaded, in terms of the rows of the tree. *)
Lemma save_and_reload_rows (S : QSerializer) (resolves : string -> bool)
  (self : AdvancedFilter) (conditions : list Condition) (q : Q) :
  QSerializer_contract S ->
  save_and_reload resolves self conditions = OK q ->
  exists saved initial,
    generate_query conditions = OK saved
    /\ mapM (_parse_query_dict resolves) (get_field_values_list saved)
       = OK initial
    /\ generate_query (map condition_of_row initial) = OK q.
Proof.
  intros HS. unfold save_and_reload.
  destruct (generate_query conditions) as [saved | e]; cbn [bind];
    [|discriminate].
  destruct (set_query self (PyQ saved)) as [[[] | e] self'] eqn:Hset;
    cbn [bind]; [|discriminate].
  unfold initialize_form.
  rewrite (list_fields_after_set_query self _ HS Hset). cbn [bind].
  destruct (mapM _ _) as [initial | e] eqn:Hrows; cbn [bind]; [|discriminate].
  intros Hq. exists saved, initial. repeat split; assumption.
Qed.

(** C1 (code at a failing input): the one-row sequence [closed_at is
    null] is valid, and compiles to the comparison [closed_at__isnull =
    True].  Read back, the value [True] makes [_parse_query_dict] call the
    row [istrue], and the rows compile to [closed_at = True].  Whatever
    the serializer, the reload never gives the tree that was saved; with
    the reference serializer it gives the other tree. *)
Theorem C1_isnull_row_reloads_as_istrue :
  generate_query [closed_at_is_null]
  = OK (mkQ [Leaf "closed_at__isnull" (VBool true)] AND false)
  /\ (forall (S : QSerializer) (resolves : string -> bool)
             (self : AdvancedFilter),
        QSerializer_contract S ->
        save_and_reload resolves self [closed_at_is_null]
        <> generate_query [closed_at_is_null])
  /\ @save_and_reload reference_serializer (fun _ => true)
       (blank_filter (Some EmptyString)) [closed_at_is_null]
     = OK (mkQ [Leaf "closed_at" (VBool true)] AND false)
  /\ comparisons (mkQ [Leaf "closed_at" (VBool true)] AND false)
     <> comparisons (mkQ [Leaf "closed_at__isnull" (VBool true)] AND false).
Proof.
  split; [reflexivity|]. split; [|split; [reflexivity | discriminate]].
  intros S resolves self HS Hsame.
  apply save_and_reload_rows in Hsame as (saved & initial & Hsaved & Hrows & Hq);
    [|exact HS].
  injection Hsaved as <-. cbn in Hrows.
  destruct (resolves "closed_at"); cbn in Hrows; [|discriminate Hrows].
  injection Hrows as <-. discriminate Hq.
Qed.

(* ================================================================== *)
(** ** Reading a comparison back *)

Lemma cons_head_app (c : ascii) (parts tail : list string) :
  parts <> [] -> cons_head c (parts ++ tail) = (cons_head c parts ++ tail)%list.
Proof. destruct parts; [congruence | reflexivity]. Qed.

(** An operator after the separator is the last part of the key, when the
    field path does not end in an underscore. *)
Lemma split_dunder_append (op : string) :
  split_dunder op = [op] ->
  forall f, ends_with_underscore f = false ->
    split_dunder (f ++ "__" ++ op) = (split_dunder f ++ [op])%list.
Proof.
  intros Hop f.
  enough (H : (ends_with_underscore f = false ->
               split_dunder (f ++ "__" ++ op) = (split_dunder f ++ [op])%list)
              /\ forall c, ends_with_underscore (String c f) = false ->
                   split_dunder (String c f ++ "__" ++ op)
                   = (split_dunder (String c f) ++ [op])%list)
    by apply H.
  induction f as [|c2 r2 [IH1 IH2]].
  - split.
    + intros _. cbn. now rewrite Hop.
    + intros c Hc. cbn in Hc. cbn. rewrite Hc. cbn. now rewrite Hop.
  - split; [apply IH2|]. intros c Hends.
    change (String c (String c2 r2) ++ "__" ++ op)
      with (String c (String c2 (r2 ++ "__" ++ op))).
    cbn [split_dunder].
    destruct (is_underscore c && is_underscore c2) eqn:Hus.
    + rewrite IH1; [reflexivity|].
      destruct r2 as [|c3 r3]; [|exact Hends].
      apply andb_true_iff in Hus as [_ Hc2]. cbn in Hends. congruence.
    + change (match r2 ++ "__" ++ op with
              | EmptyString => cons_head c2 (split_dunder (r2 ++ "__" ++ op))
              | String c3 r3 =>
                  if is_underscore c2 && is_underscore c3
                  then EmptyString :: split_dunder r3
                  else cons_head c2 (split_dunder (r2 ++ "__" ++ op))
              end) with (split_dunder (String c2 r2 ++ "__" ++ op)).
      change (match r2 with
              | EmptyString => cons_head c2 (split_dunder r2)
              | String c3 r3 =>
                  if is_underscore c2 && is_underscore c3
                  then EmptyString :: split_dunder r3
                  else cons_head c2 (split_dunder r2)
              end) with (split_dunder (String c2 r2)).
      rewrite IH2 by exact Hends.
      apply cons_head_app, split_dunder_not_nil.
Qed.

Lemma split_dunder_operator (op : string) :
  is_operator op = true -> split_dunder op = [op].
Proof.
  intros H. apply is_operator_cases in H. cbn in H.
  repeat (destruct H as [<- | H]; [reflexivity|]). destruct H.
Qed.

(* ================================================================== *)
(** ** The shape of a compiled tree *)

Lemma make_query_child (c : Condition) :
  make_query c = mkQ [child_of c] AND false.
Proof.
  unfold make_query, child_of. destruct (build_query_dict c) as [key v].
  now destruct (negate c).
Qed.

(** A conjunction holds one child for each condition. *)
Lemma conjunction_children (g : list Condition) :
  conjunction g = mkQ (map child_of g) AND false.
Proof.
  induction g as [|c g IH] using rev_ind; [reflexivity|].
  rewrite conjunction_snoc, IH, make_query_child, map_app. reflexivity.
Qed.

(* ================================================================== *)
(** ** The rows of a compiled tree *)

Lemma get_field_values_list_node (cs : list child) (c : connector) (neg : bool) :
  get_field_values_list (mkQ cs c neg) = rows_of_children c neg cs.
Proof. induction cs as [|ch cs IH]; [reflexivity|]. cbn. now rewrite <- IH. Qed.

Lemma rows_of_child_of (c : Condition) :
  match child_of c with
  | Leaf key v => [leaf_row key v false]
  | Sub q => get_field_values_list q
  end = [row_of c].
Proof.
  unfold child_of, row_of. destruct (build_query_dict c) as [key v].
  now destruct (negate c).
Qed.

Lemma rows_of_conjunction (g : list Condition) :
  get_field_values_list (conjunction g) = map row_of g.
Proof.
  rewrite conjunction_children, get_field_values_list_node.
  induction g as [|c g IH]; [reflexivity|].
  cbn [map rows_of_children]. rewrite rows_of_child_of, IH.
  now destruct (map child_of g).
Qed.

(* ================================================================== *)
(** ** Reading the rows back *)

Lemma mapM_map_ok {A B C : Type} (f : B -> result C) (g : A -> B)
  (h : A -> C) (l : list A) :
  (forall x, In x l -> f (g x) = OK (h x)) ->
  mapM f (map g l) = OK (map h l).
Proof.
  induction l as [|a l IH]; intros Hall; [reflexivity|].
  cbn [map mapM]. rewrite (Hall a) by now left. cbn [bind].
  rewrite IH by (intros x Hx; apply Hall; now right). reflexivity.
Qed.

Lemma dunder_key_not_marker (f op : string) :
  ends_with_underscore f = false -> is_operator op = true ->
  String.eqb (f ++ "__" ++ op) "_OR" = false.
Proof.
  intros Hf Hop. apply String.eqb_neq. intros Heq.
  pose proof (split_dunder_append (split_dunder_operator op Hop) f Hf) as Hs.
  rewrite Heq in Hs. pose proof (split_dunder_not_nil f) as Hne.
  destruct (split_dunder f) as [|p [|q l]]; [congruence | |]; discriminate Hs.
Qed.

(** The comparison of a plain condition is read back as its field, its
    operator and its value. *)
Lemma parse_row_of (resolves : string -> bool)
  (c : Condition) :
  plain resolves c = true ->
  _parse_query_dict resolves (row_of c) = OK (parsed c).
Proof.
  unfold plain, field_path_ok. intros Hplain.
  apply andb_true_iff in Hplain as [Hfield Hop].
  apply andb_true_iff in Hfield as [Hfield Hres].
  apply andb_true_iff in Hfield as [Hfield Hreserved].
  apply andb_true_iff in Hfield as [Hmarker Hends].
  apply negb_true_iff in Hmarker, Hends, Hreserved.
  destruct c as [f op v neg del]. cbn [field operator value negate] in *.
  unfold row_of, parsed, build_query_dict, is_flag in *.
  cbn [field operator value negate].
  destruct (String.eqb_spec op "istrue") as [-> | Hnt];
    [|destruct (String.eqb_spec op "isfalse") as [-> | Hnf]].
  - unfold _parse_query_dict, leaf_row. cbn [row_field]. rewrite Hmarker.
    rewrite split_operator_cases. cbn [row_field]. rewrite Hreserved, andb_false_r.
    cbn [row_field]. rewrite Hres. reflexivity.
  - unfold _parse_query_dict, leaf_row. cbn [row_field]. rewrite Hmarker.
    rewrite split_operator_cases. cbn [row_field]. rewrite Hreserved, andb_false_r.
    cbn [row_field]. rewrite Hres. reflexivity.
  - cbn [orb] in Hop. apply andb_true_iff in Hop as [Hvalued Htext].
    unfold is_valued in Hvalued.
    apply andb_true_iff in Hvalued as [Hvalued Hnull].
    apply andb_true_iff in Hvalued as [Hisop _].
    apply negb_true_iff in Hnull. rewrite Hnull.
    destruct v as [| b | z | s | l]; try discriminate Htext.
    unfold _parse_query_dict, leaf_row. cbn [row_field].
    rewrite dunder_key_not_marker by assumption.
    rewrite split_operator_cases. cbn [row_field].
    rewrite (split_dunder_append (split_dunder_operator op Hisop) f Hends).
    unfold last_part, init_parts. rewrite last_last, removelast_last.
    rewrite length_app. cbn [length].
    rewrite join_split_dunder.
    assert (Hlen : Nat.leb 2 (length (split_dunder f) + 1) = true).
    { pose proof (split_dunder_not_nil f) as Hne. apply Nat.leb_le.
      destruct (split_dunder f); [congruence | cbn; lia]. }
    rewrite Hlen, Hisop.
    cbn [andb set_field set_operator row_field row_operator
         row_value row_value_from row_value_to row_negate].
    rewrite Hres. reflexivity.
Qed.

(* ================================================================== *)
(** ** Compiling the rows that were read back *)

Lemma build_query_dict_reloaded (c : Condition) :
  build_query_dict (reloaded c) = build_query_dict c.
Proof.
  unfold build_query_dict, reloaded, is_flag. cbn [field operator value].
  destruct (String.eqb (operator c) "istrue"); [reflexivity|].
  destruct (String.eqb (operator c) "isfalse"); reflexivity.
Qed.

Lemma conjunction_reloaded (g : list Condition) :
  conjunction (map reloaded g) = conjunction g.
Proof.
  rewrite !conjunction_children, map_map. f_equal. apply map_ext.
  intros c. unfold child_of. now rewrite build_query_dict_reloaded.
Qed.

(** Plain conditions that were read back are compiled, every one. *)
Lemma reloaded_plain (resolves : string -> bool) (g : list Condition) :
  forallb (plain resolves) g = true ->
  existsb is_live_marker (map reloaded g) = false
  /\ filter is_live_condition (map reloaded g) = map reloaded g.
Proof.
  induction g as [|c g IH]; [now split|].
  cbn [forallb map existsb filter]. intros H.
  apply andb_true_iff in H as [Hc Hg]. destruct (IH Hg) as [Hmarker Hlive].
  unfold plain, field_path_ok in Hc.
  repeat (apply andb_true_iff in Hc as [Hc _]). apply negb_true_iff in Hc.
  unfold is_live_marker at 1, is_live_condition at 1.
  cbn [reloaded field delete negb andb]. rewrite Hc. cbn [negb orb].
  now rewrite Hmarker, Hlive.
Qed.

(** The round-trip law where it holds: a sequence with no live marker,
    whose live conditions are plain and whose token fits the storage
    field, is reloaded as the tree that was saved. *)
Lemma save_and_reload_plain (S : QSerializer) (resolves : string -> bool)
  (self : AdvancedFilter) (rows : list Condition) :
  QSerializer_contract S ->
  existsb is_live_marker rows = false ->
  forallb (plain resolves) (filter is_live_condition rows) = true ->
  String.length (serialize (conjunction (filter is_live_condition rows)))
  <= b64_query_max_length ->
  save_and_reload resolves self rows = generate_query rows.
Proof.
  intros HS Hmarker Hplain Hfits.
  unfold save_and_reload. rewrite generate_query_cases, Hmarker. cbn [bind].
  set (live := filter is_live_condition rows) in *.
  destruct (set_query self (PyQ (conjunction live))) as [outcome self'] eqn:Hset.
  assert (Hok : outcome = OK tt).
  { unfold set_query, dumps in Hset. apply Nat.ltb_ge in Hfits.
    rewrite Hfits in Hset. now injection Hset as <- _. }
  subst outcome. cbn [bind]. unfold initialize_form.
  rewrite (list_fields_after_set_query self _ HS Hset). cbn [bind].
  rewrite rows_of_conjunction, (mapM_map_ok _ row_of parsed).
  - cbn [bind]. rewrite map_map.
    change (fun x => condition_of_row (parsed x)) with reloaded.
    destruct (reloaded_plain resolves live Hplain) as [Hnone Hall].
    now rewrite generate_query_cases, Hnone, Hall, conjunction_reloaded.
  - intros c Hin. apply parse_row_of.
    now apply (proj1 (forallb_forall _ _) Hplain).
Qed.

(** The law on a sequence with a negated comparison, a deleted row and a
    flag, under the reference serializer. *)
Lemma save_and_reload_plain_example :
  let rows :=
    [ mkCondition "owner__name" "icontains" (VStr "ann") true false;
      mkCondition "priority" "gte" (VStr "3") false true;
      mkCondition "priority" "lte" (VStr "5") false false;
      mkCondition "archived" "isfalse" (VStr "ignored") false false;
      status_is "open" ] in
  @save_and_reload reference_serializer (fun _ => true) (blank_filter None) rows
  = generate_query rows.
Proof.
  cbn zeta.
  apply (@save_and_reload_plain reference_serializer);
    [ apply reference_serializer_contract | reflexivity | reflexivity | ].
  apply Nat.leb_le. vm_compute. reflexivity.
Qed.

(* ================================================================== *)
(** ** What [generate_query] returns without a marker *)

Lemma segments_from_without_marker (rows cur : list Condition) :
  forallb (fun c => delete c || negb (String.eqb (field c) "_OR")) rows = true ->
  segments_from cur rows
  = [(cur ++ filter (fun c => negb (delete c)) rows)%list].
Proof.
  revert cur. induction rows as [|r rows IH]; intros cur Hno.
  - cbn. now rewrite app_nil_r.
  - cbn [forallb] in Hno. apply andb_true_iff in Hno as [Hr Hrows].
    cbn [segments_from filter]. destruct (delete r); cbn [negb orb] in *.
    + now apply IH.
    + apply negb_true_iff in Hr. rewrite Hr, IH by exact Hrows.
      now rewrite <- app_assoc.
Qed.

(** X5: With no live marker among the rows the method returns, and the
    tree is one flat conjunction: an AND node, not negated, with one child
    for each row that is not deleted, in the order of the rows; the child
    of a negated row is the negated node that holds its comparison. *)
Theorem generate_query_without_marker (rows : list Condition) :
  forallb (fun c => delete c || negb (String.eqb (field c) "_OR")) rows = true ->
  generate_query rows
  = OK (mkQ (map child_of (filter (fun c => negb (delete c)) rows)) AND false).
Proof.
  intros Hno. rewrite generate_query_unfold. unfold segments.
  rewrite (segments_from_without_marker rows [] Hno).
  cbn [removelast last app]. now rewrite conjunction_children.
Qed.

Lemma generate_query_without_marker_witness :
  let rows :=
    [ mkCondition "owner__name" "icontains" (VStr "ann") true false;
      mkCondition "_OR" "iexact" VNone false true;
      mkCondition "archived" "isfalse" VNone false false ] in
  forallb (fun c => delete c || negb (String.eqb (field c) "_OR")) rows = true
  /\ generate_query rows
     = OK (mkQ [ Sub (mkQ [Leaf "owner__name__icontains" (VStr "ann")] AND true);
                 Leaf "archived" (VBool false) ] AND false).
Proof.
  cbn zeta. split; [reflexivity|].
  apply (generate_query_without_marker
           [ mkCondition "owner__name" "icontains" (VStr "ann") true false;
             mkCondition "_OR" "iexact" VNone false true;
             mkCondition "archived" "isfalse" VNone false false ]).
  reflexivity.
Defined.

(** X1: Rows marked for deletion have no effect: what the method returns or
    raises on the rows is what it returns or raises on the rows that are
    not deleted. *)
Theorem generate_query_ignores_deleted (rows : list Condition) :
  generate_query rows
  = generate_query (filter (fun c => negb (delete c)) rows).
Proof. apply generate_query_skips_deleted. Qed.

(* ================================================================== *)
(** ** What [_parse_query_dict] raises, keeps and passes on *)

Lemma parse_query_dict_not_marker (resolves : string -> bool)  (d : row) :
  row_field d <> "_OR" ->
  _parse_query_dict resolves d
  = if negb (resolves (row_field (split_operator d))) then Err FieldPathError
    else (d' <- normalize_value (split_operator d) ;;
          normalize_range d').
Proof.
  intros Hf. unfold _parse_query_dict.
  apply String.eqb_neq in Hf. now rewrite Hf.
Qed.

(** X8: The order of the errors: a field path that does not resolve raises
    the field error whatever else the row holds or lacks; a row whose
    field resolves but which has no [value] key raises [KeyError]. *)
Theorem parse_query_dict_errors (resolves : string -> bool)  (d : row) :
  row_field d <> "_OR" ->
  resolves (row_field (split_operator d)) = false \/ row_value d = None ->
  _parse_query_dict resolves d
  = Err (if resolves (row_field (split_operator d))
         then KeyError "value" else FieldPathError).
Proof.
  intros Hf Hbad. rewrite parse_query_dict_not_marker by exact Hf.
  destruct (resolves (row_field (split_operator d))); [|reflexivity].
  destruct Hbad as [Hres | Hval]; [discriminate Hres|].
  destruct (split_operator_value d) as [Hv _]. rewrite Hval in Hv.
  cbn [negb]. unfold normalize_value. now rewrite Hv.
Qed.

Lemma parse_query_dict_errors_witness :
  let d := mkRow "name__icontains" None None None None (Some false) in
  (row_field d <> "_OR" /\ row_value d = None)
  /\ _parse_query_dict (fun f => String.eqb f "name") d
     = Err (KeyError "value")
  /\ _parse_query_dict (fun f => String.eqb f "title") d
     = Err FieldPathError.
Proof.
  cbn zeta. split; [split; [discriminate | reflexivity]|]. split.
  - apply (@parse_query_dict_errors (fun f => String.eqb f "name")
             (mkRow "name__icontains" None None None None (Some false)));
      [discriminate | right; reflexivity].
  - apply (@parse_query_dict_errors (fun f => String.eqb f "title")
             (mkRow "name__icontains" None None None None (Some false)));
      [discriminate | left; reflexivity].
Defined.

(** X9: A text or a number is passed on as it is: for a row that is not the
    marker and whose field resolves, the only change is the split of the
    operator off the key path. *)
Theorem parse_query_dict_scalar (resolves : string -> bool)  (d : row) (v : pyval) :
  row_field d <> "_OR" ->
  resolves (row_field (split_operator d)) = true ->
  row_value d = Some v -> is_scalar_value v = true ->
  _parse_query_dict resolves d = OK (split_operator d).
Proof.
  intros Hf Hres Hv Hscalar. rewrite parse_query_dict_steps by assumption.
  destruct (split_operator_value d) as [Hval _]. rewrite Hv in Hval.
  unfold normalize_value. rewrite Hval. cbn [getitem bind].
  destruct v; try discriminate Hscalar; cbn [bind];
    unfold normalize_range; now rewrite Hval.
Qed.

Lemma parse_query_dict_scalar_witness :
  let d := mkRow "owner__age__gte" (Some "iexact") (Some (VStr "18")) None None
                 (Some true) in
  (row_field d <> "_OR" /\ row_value d = Some (VStr "18")
   /\ is_scalar_value (VStr "18") = true)
  /\ _parse_query_dict (fun _ => true) d
     = OK (mkRow "owner__age" (Some "gte") (Some (VStr "18")) None None
                 (Some true)).
Proof.
  cbn zeta. split; [repeat split; discriminate|].
  apply (@parse_query_dict_scalar (fun _ => true)
           (mkRow "owner__age__gte" (Some "iexact") (Some (VStr "18")) None
                  None (Some true)) (VStr "18"));
    [discriminate | reflexivity | reflexivity | reflexivity].
Defined.

(** X10: A list value is looked at only under [range].  With any other
    operator the row is passed on after the split; with no operator at
    all, supplied or recovered from the key path, the comparison of the
    operator raises [KeyError]. *)
Theorem parse_query_dict_list (resolves : string -> bool)  (d : row) (items : list scalar) :
  row_field d <> "_OR" ->
  resolves (row_field (split_operator d)) = true ->
  row_value d = Some (VList items) ->
  row_operator (split_operator d) <> Some "range" ->
  _parse_query_dict resolves d
  = match row_operator (split_operator d) with
    | Some _ => OK (split_operator d)
    | None => Err (KeyError "operator")
    end.
Proof.
  intros Hf Hres Hv Hop. rewrite parse_query_dict_steps by assumption.
  destruct (split_operator_value d) as [Hval _]. rewrite Hv in Hval.
  unfold normalize_value. rewrite Hval. cbn [getitem bind].
  unfold normalize_range. rewrite Hval. cbn [get_default is_list].
  destruct (row_operator (split_operator d)) as [op|]; [|reflexivity].
  cbn [getitem bind].
  destruct (String.eqb_spec op "range") as [-> | _]; [congruence | reflexivity].
Qed.

Lemma parse_query_dict_list_witness :
  let d := mkRow "id__in" None (Some (VList [SInt 1; SInt 2])) None None
                 (Some false) in
  let bare := mkRow "tags" None (Some (VList [SInt 1; SInt 2])) None None
                    (Some false) in
  (row_field d <> "_OR" /\ row_operator (split_operator d) = Some "in"
   /\ row_field bare <> "_OR" /\ row_operator (split_operator bare) = None)
  /\ _parse_query_dict (fun _ => true) d
     = OK (mkRow "id" (Some "in") (Some (VList [SInt 1; SInt 2])) None None
                 (Some false))
  /\ _parse_query_dict (fun _ => true) bare
     = Err (KeyError "operator").
Proof.
  cbn zeta. split; [repeat split; discriminate|]. split.
  - apply (@parse_query_dict_list (fun _ => true)
             (mkRow "id__in" None (Some (VList [SInt 1; SInt 2])) None None
                    (Some false)) [SInt 1; SInt 2]);
      [discriminate | reflexivity | reflexivity | discriminate].
  - apply (@parse_query_dict_list (fun _ => true)
             (mkRow "tags" None (Some (VList [SInt 1; SInt 2])) None None
                    (Some false)) [SInt 1; SInt 2]);
      [discriminate | reflexivity | reflexivity | discriminate].
Defined.

Lemma normalize_value_frame (d d' : row) :
  normalize_value d = OK d' ->
  row_field d' = row_field d /\ row_negate d' = row_negate d
  /\ row_value_from d' = row_value_from d /\ row_value_to d' = row_value_to d.
Proof.
  unfold normalize_value. destruct (row_value d) as [v|]; [|discriminate].
  cbn [getitem bind].
  destruct v as [| [|] | z | s | l]; intros E; injection E as <-;
    repeat split.
Qed.

Lemma normalize_range_frame (d d' : row) :
  normalize_range d = OK d' -> d' = d.
Proof.
  unfold normalize_range.
  destruct (is_list _); [|intros E; now injection E as <-].
  destruct (row_operator d) as [op|]; [|discriminate]. cbn [getitem bind].
  destruct (String.eqb op "range"); [discriminate|].
  intros E. now injection E as <-.
Qed.

Lemma split_operator_frame (d : row) :
  row_negate (split_operator d) = row_negate d.
Proof.
  unfold split_operator.
  destruct (Nat.ltb _ 2); [now destruct d|].
  destruct (is_operator _); now destruct d.
Qed.

Lemma split_operator_marker (d : row) :
  row_field d = "_OR" -> row_field (split_operator d) = "_OR".
Proof. intros Hf. unfold split_operator. rewrite Hf. reflexivity. Qed.

(** X11: What a successful call never touches: the negate flag and the two
    endpoints stay as they came, and the field is the key path with the
    operator split off, whatever the value made of the operator. *)
Theorem parse_query_dict_frame (resolves : string -> bool) (d d' : row) :
  _parse_query_dict resolves d = OK d' ->
  row_field d' = row_field (split_operator d)
  /\ row_negate d' = row_negate d
  /\ row_value_from d' = row_value_from d
  /\ row_value_to d' = row_value_to d.
Proof.
  unfold _parse_query_dict.
  destruct (String.eqb_spec (row_field d) "_OR") as [Hmarker | _].
  - intros E. injection E as <-. rewrite split_operator_marker by exact Hmarker.
    now rewrite <- Hmarker.
  - destruct (resolves _); [|discriminate]. cbn [negb].
    destruct (normalize_value (split_operator d)) as [d1|] eqn:Hnv;
      [|discriminate].
    cbn [bind]. intros Hnr.
    apply normalize_value_frame in Hnv as (Hf1 & Hn1 & Hvf1 & Hvt1).
    apply normalize_range_frame in Hnr as ->.
    destruct (split_operator_value d) as (_ & Hvf & Hvt).
    pose proof (split_operator_frame d) as Hn.
    repeat split; congruence.
Qed.

Lemma parse_query_dict_frame_witness :
  let d := mkRow "closed__gte" (Some "lt") (Some (VBool true))
                 (Some (VInt 0)) (Some (VInt 86400)) (Some true) in
  _parse_query_dict (fun _ => true) d
  = OK (mkRow "closed" (Some "istrue") (Some VNone)
              (Some (VInt 0)) (Some (VInt 86400)) (Some true))
  /\ row_field (split_operator d) = "closed".
Proof.
  cbn zeta.
  assert (Hrun : _parse_query_dict (fun _ => true)
                   (mkRow "closed__gte" (Some "lt") (Some (VBool true))
                          (Some (VInt 0)) (Some (VInt 86400)) (Some true))
                 = OK (mkRow "closed" (Some "istrue") (Some VNone)
                             (Some (VInt 0)) (Some (VInt 86400)) (Some true)))
    by reflexivity.
  split; [exact Hrun|].
  destruct (parse_query_dict_frame _ _ Hrun) as [Hfield _].
  symmetry. exact Hfield.
Defined.

(* ================================================================== *)
(** ** [build_query_dict] then [_parse_query_dict] *)

Lemma plain_parts (resolves : string -> bool) (c : Condition) :
  plain resolves c = true ->
  String.eqb (field c) "_OR" = false
  /\ ends_with_underscore (field c) = false
  /\ is_operator (last_part (split_dunder (field c))) = false
  /\ resolves (field c) = true
  /\ (is_flag (operator c) = true
      \/ (is_operator (operator c) = true /\ is_flag (operator c) = false
          /\ String.eqb (operator c) "isnull" = false
          /\ is_text (value c) = true)).
Proof.
  unfold plain, field_path_ok, is_valued. intros H.
  apply andb_true_iff in H as [H Hop].
  apply andb_true_iff in H as [H Hres].
  apply andb_true_iff in H as [H Hreserved].
  apply andb_true_iff in H as [Hmarker Hends].
  apply negb_true_iff in Hmarker, Hends, Hreserved.
  repeat split; try assumption.
  destruct (is_flag (operator c)); [now left | right].
  cbn [orb] in Hop. apply andb_true_iff in Hop as [Hv Htext].
  apply andb_true_iff in Hv as [Hv Hnull].
  apply andb_true_iff in Hv as [Hisop _].
  apply negb_true_iff in Hnull. now repeat split.
Qed.

Lemma build_query_dict_flag (c : Condition) :
  is_flag (operator c) = true ->
  build_query_dict c
  = (field c, VBool (String.eqb (operator c) "istrue")).
Proof.
  unfold is_flag, build_query_dict.
  destruct (String.eqb (operator c) "istrue"); [reflexivity|].
  now destruct (String.eqb (operator c) "isfalse").
Qed.

Lemma build_query_dict_suffixed (c : Condition) :
  is_flag (operator c) = false ->
  build_query_dict c
  = (field c ++ "__" ++ operator c,
     if String.eqb (operator c) "isnull" then VBool true else value c).
Proof.
  unfold is_flag, build_query_dict.
  destruct (String.eqb (operator c) "istrue"); [discriminate|].
  destruct (String.eqb (operator c) "isfalse"); [discriminate|].
  now destruct (String.eqb (operator c) "isnull").
Qed.

(** The operator that a key path ends in is split off again. *)
Lemma split_operator_suffixed (d : row) (f op : string) :
  ends_with_underscore f = false -> is_operator op = true ->
  row_field d = f ++ "__" ++ op ->
  split_operator d = set_field f (set_operator op d).
Proof.
  intros Hends Hisop Hkey. rewrite split_operator_cases. cbn zeta.
  rewrite Hkey, (split_dunder_append (split_dunder_operator op Hisop) f Hends).
  unfold last_part, init_parts.
  rewrite last_last, removelast_last, length_app, join_split_dunder.
  cbn [length].
  assert (Hlen : Nat.leb 2 (length (split_dunder f) + 1) = true).
  { pose proof (split_dunder_not_nil f) as Hne. apply Nat.leb_le.
    destruct (split_dunder f); [congruence | cbn; lia]. }
  now rewrite Hlen, Hisop.
Qed.

(** X13: What [build_query_dict] writes for a plain condition,
    [_parse_query_dict] reads back as the field, the operator and the
    value of the condition; a flag comes back with no value. *)
Theorem parse_query_dict_reads_back (resolves : string -> bool)  (c : Condition) (d : row) :
  plain resolves c = true ->
  row_field d = fst (build_query_dict c) ->
  row_value d = Some (snd (build_query_dict c)) ->
  _parse_query_dict resolves d
  = OK (mkRow (field c) (Some (operator c))
              (Some (if is_flag (operator c) then VNone else value c))
              (row_value_from d) (row_value_to d) (row_negate d)).
Proof.
  intros Hplain Hkey Hval.
  apply plain_parts in Hplain
    as (Hmarker & Hends & Hreserved & Hres & [Hflag | (Hisop & Hflag & Hnull & Htext)]).
  - rewrite build_query_dict_flag in Hkey, Hval by exact Hflag.
    cbn [fst snd] in Hkey, Hval. rewrite Hflag.
    destruct d as [df dop dv dvf dvt dn]. cbn [row_field row_value] in *.
    subst df dv. unfold _parse_query_dict. cbn [row_field]. rewrite Hmarker.
    rewrite split_operator_cases. cbn [row_field].
    rewrite Hreserved, andb_false_r. cbn [row_field]. rewrite Hres.
    unfold is_flag in Hflag.
    destruct (String.eqb_spec (operator c) "istrue") as [-> | _];
      [reflexivity|].
    destruct (String.eqb_spec (operator c) "isfalse") as [-> | _];
      [reflexivity | discriminate Hflag].
  - rewrite build_query_dict_suffixed in Hkey, Hval by exact Hflag.
    rewrite Hnull in Hval. cbn [fst snd] in Hkey, Hval. rewrite Hflag.
    destruct (value c) as [| b | z | s | l] eqn:Hv; try discriminate Htext.
    unfold _parse_query_dict. rewrite Hkey.
    rewrite dunder_key_not_marker by assumption.
    rewrite (@split_operator_suffixed d (field c) (operator c) Hends Hisop Hkey).
    destruct d as [df dop dv dvf dvt dn]. cbn [row_field row_value] in *.
    subst dv.
    cbn [set_field set_operator row_field row_operator row_value
         row_value_from row_value_to row_negate].
    rewrite Hres. reflexivity.
Qed.

Lemma parse_query_dict_reads_back_witness :
  let c := mkCondition "owner__name" "istartswith" (VStr "An") true false in
  let d := mkRow "owner__name__istartswith" None (Some (VStr "An")) None None
                 (Some true) in
  (plain (fun _ => true) c = true
   /\ row_field d = fst (build_query_dict c)
   /\ row_value d = Some (snd (build_query_dict c)))
  /\ _parse_query_dict (fun _ => true) d
     = OK (mkRow "owner__name" (Some "istartswith") (Some (VStr "An")) None
                 None (Some true)).
Proof.
  cbn zeta. split; [repeat split|].
  apply (@parse_query_dict_reads_back (fun _ => true)
           (mkCondition "owner__name" "istartswith" (VStr "An") true false)
           (mkRow "owner__name__istartswith" None (Some (VStr "An")) None None
                  (Some true)));
    reflexivity.
Defined.

(** X14: An [isnull] condition does not come back: its comparison is written
    with the value [True], and the reader, after it has split [isnull] off
    the key path, takes [True] for the operator [istrue].  This holds for
    every field path that resolves and does not end in an underscore. *)
Theorem parse_query_dict_isnull_reads_istrue (resolves : string -> bool)  (c : Condition) (d : row) :
  operator c = "isnull" ->
  ends_with_underscore (field c) = false ->
  resolves (field c) = true ->
  row_field d = fst (build_query_dict c) ->
  row_value d = Some (snd (build_query_dict c)) ->
  _parse_query_dict resolves d
  = OK (mkRow (field c) (Some "istrue") (Some VNone)
              (row_value_from d) (row_value_to d) (row_negate d)).
Proof.
  intros Hop Hends Hres Hkey Hval.
  rewrite build_query_dict_suffixed in Hkey, Hval by now rewrite Hop.
  rewrite Hop in Hkey, Hval. cbn [fst snd] in Hkey, Hval.
  rewrite String.eqb_refl in Hval.
  unfold _parse_query_dict. rewrite Hkey.
  rewrite dunder_key_not_marker by (assumption || reflexivity).
  rewrite (@split_operator_suffixed d (field c) "isnull" Hends eq_refl Hkey).
  destruct d as [df dop dv dvf dvt dn]. cbn [row_field row_value] in *.
  subst dv.
  cbn [set_field set_operator row_field row_operator row_value
       row_value_from row_value_to row_negate].
  rewrite Hres. reflexivity.
Qed.

Lemma parse_query_dict_isnull_reads_istrue_witness :
  let c := mkCondition "closed_at" "isnull" VNone false false in
  let d := mkRow "closed_at__isnull" None (Some (VBool true)) None None
                 (Some false) in
  (operator c = "isnull"
   /\ row_field d = fst (build_query_dict c)
   /\ row_value d = Some (snd (build_query_dict c)))
  /\ _parse_query_dict (fun _ => true) d
     = OK (mkRow "closed_at" (Some "istrue") (Some VNone) None None
                 (Some false)).
Proof.
  cbn zeta. split; [repeat split|].
  apply (@parse_query_dict_isnull_reads_istrue (fun _ => true)
           (mkCondition "closed_at" "isnull" VNone false false)
           (mkRow "closed_at__isnull" None (Some (VBool true)) None None
                  (Some false)));
    reflexivity.
Defined.

(* ================================================================== *)
(** ** The list filter *)

Lemma custom_queries_fold (custom : list custom_filter) (value : string) :
  forall found,
    fold_left (fun found t =>
                 if String.eqb (custom_id t) value then Some (custom_query t)
                 else found) custom found
    = match custom_queries custom value with
      | Some q => Some q
      | None => found
      end.
Proof.
  unfold custom_queries.
  induction custom as [|t custom IH]; intros found; [reflexivity|].
  cbn [fold_left]. rewrite IH.
  rewrite (IH (if String.eqb (custom_id t) value
               then Some (custom_query t) else None)).
  destruct (fold_left _ custom None); [reflexivity|].
  now destruct (String.eqb (custom_id t) value).
Qed.

Lemma custom_queries_none (custom : list custom_filter) (value : string) :
  (forall t, In t custom -> custom_id t <> value) ->
  custom_queries custom value = None.
Proof.
  induction custom as [|t custom IH]; intros Hno; [reflexivity|].
  unfold custom_queries. cbn [fold_left]. rewrite custom_queries_fold.
  rewrite IH by (intros t' Hin; apply Hno; now right).
  assert (Hid : String.eqb (custom_id t) value = false)
    by (apply String.eqb_neq, Hno; now left).
  now rewrite Hid.
Qed.

(** Of the entries with one id the last is the one looked up. *)
Lemma custom_queries_last (before after : list custom_filter)
  (t : custom_filter) :
  (forall t', In t' after -> custom_id t' <> custom_id t) ->
  custom_queries (before ++ t :: after) (custom_id t) = Some (custom_query t).
Proof.
  intros Hlast. unfold custom_queries. rewrite fold_left_app. cbn [fold_left].
  rewrite String.eqb_refl, custom_queries_fold.
  now rewrite (custom_queries_none after Hlast).
Qed.

Section ListFilterFacts.

Context {S : QSerializer}.
Variable QuerySet : Type.
Variable qs_filter : Q -> QuerySet -> outcome QuerySet.
Variable qs_distinct : QuerySet -> QuerySet.
Variable first_by_id : string -> outcome (option AdvancedFilter).

(** X15: A custom filter hides the stored filter of the same id: when the
    selected id is the id of a custom entry, the queryset is filtered by
    the query of the last such entry, and the table of stored filters is
    not consulted, whatever it would answer. *)
Theorem queryset_custom_first (before after : list custom_filter)
  (t : custom_filter) (queryset : QuerySet) :
  custom_id t <> EmptyString ->
  (forall t', In t' after -> custom_id t' <> custom_id t) ->
  AdvancedListFilters_queryset qs_filter qs_distinct first_by_id
    (before ++ t :: after) (Some (custom_id t)) queryset
  = filter_distinct qs_filter qs_distinct (custom_query t) queryset.
Proof.
  intros Hid Hlast. unfold AdvancedListFilters_queryset.
  rewrite (custom_queries_last before after t Hlast).
  now destruct (custom_id t).
Qed.


(** X17: A stored filter with an empty or absent token breaks the listing: its
    [query] is [None], and the method raises [AttributeError] on
    [query.__dict__] instead of returning the queryset. *)
Theorem queryset_empty_token_raises (custom : list custom_filter)
  (value : string) (advfilter : AdvancedFilter) (queryset : QuerySet) :
  value <> EmptyString ->
  (forall t, In t custom -> custom_id t <> value) ->
  first_by_id value = Returns (Some advfilter) ->
  b64_query advfilter = None \/ b64_query advfilter = Some EmptyString ->
  AdvancedListFilters_queryset qs_filter qs_distinct first_by_id custom
    (Some value) queryset
  = Raises (AttributeError "__dict__").
Proof.
  intros Hvalue Hcustom Hstored Htoken. unfold AdvancedListFilters_queryset.
  rewrite (custom_queries_none custom Hcustom), Hstored.
  assert (Hq : query advfilter = OK None)
    by (unfold query, b64_query_falsy; destruct Htoken as [-> | ->];
        reflexivity).
  rewrite Hq. destruct value; [congruence | reflexivity].
Qed.

End ListFilterFacts.

(* ================================================================== *)
(** ** Sorting and dictionaries *)




Lemma insert_by_permutation {A : Type} (key : A -> string) (x : A)
  (l : list A) : Permutation (insert_by key x l) (x :: l).
Proof.
  induction l as [|y l IH]; cbn [insert_by]; [reflexivity|].
  destruct (String.leb (key x) (key y)); [reflexivity|].
  rewrite IH. apply perm_swap.
Qed.

Lemma sorted_by_permutation {A : Type} (key : A -> string) (l : list A) :
  Permutation (sorted_by key l) l.
Proof.
  induction l as [|x l IH]; [reflexivity|]. cbn [sorted_by].
  rewrite insert_by_permutation. now constructor.
Qed.

Lemma dict_get_set (k v k' : string) (d : list (string * string)) :
  dict_get k' (dict_set k v d)
  = if String.eqb k k' then Some v else dict_get k' d.
Proof.
  induction d as [|[k0 v0] d IH]; cbn [dict_set dict_get].
  - reflexivity.
  - destruct (String.eqb_spec k0 k) as [-> | Hk0]; cbn [dict_get].
    + now destruct (String.eqb k k').
    + rewrite IH. destruct (String.eqb_spec k0 k') as [-> | Hk0'];
        [|reflexivity].
      destruct (String.eqb_spec k k'); [congruence | reflexivity].
Qed.

Lemma dict_set_keys (k v : string) (d : list (string * string)) :
  forall k', In k' (map fst (dict_set k v d)) <-> k' = k \/ In k' (map fst d).
Proof.
  induction d as [|[k0 v0] d IH]; intros k'; cbn [dict_set map fst In].
  - intuition.
  - destruct (String.eqb_spec k0 k) as [-> | Hk0]; cbn [map fst In].
    + intuition.
    + rewrite IH. intuition.
Qed.

Lemma dict_set_NoDup (k v : string) (d : list (string * string)) :
  NoDup (map fst d) -> NoDup (map fst (dict_set k v d)).
Proof.
  induction d as [|[k0 v0] d IH]; intros Hd; cbn [dict_set map fst].
  - repeat constructor. intros [].
  - cbn [map fst] in Hd. inversion Hd as [|? ? Hnotin Hd']; subst.
    destruct (String.eqb_spec k0 k) as [-> | Hk0]; cbn [map fst].
    + now constructor.
    + constructor; [|now apply IH].
      rewrite dict_set_keys. intros [-> | Hin]; [congruence | contradiction].
Qed.

(** In a dictionary with no key twice, the items are what the lookup
    finds. *)
Lemma dict_get_In (k v : string) (d : list (string * string)) :
  NoDup (map fst d) -> (In (k, v) d <-> dict_get k d = Some v).
Proof.
  induction d as [|[k0 v0] d IH]; intros Hd; cbn [In dict_get].
  - split; [intros [] | discriminate].
  - cbn [map fst] in Hd. inversion Hd as [|? ? Hnotin Hd']; subst.
    destruct (String.eqb_spec k0 k) as [-> | Hk0].
    + split.
      * intros [E | Hin]; [now injection E as -> |].
        exfalso. apply Hnotin. apply (in_map fst) in Hin. exact Hin.
      * intros E. injection E as ->. now left.
    + rewrite <- IH by exact Hd'. split; [|now right].
      intros [E | Hin]; [injection E as -> _; congruence | exact Hin].
Qed.

Lemma mapM_Forall2 {A B : Type} (f : A -> result B) (l : list A)
  (out : list B) :
  mapM f l = OK out <-> Forall2 (fun a b => f a = OK b) l out.
Proof.
  revert out. induction l as [|a l IH]; intros out; cbn [mapM].
  - split; [intros E; injection E as <-; constructor|].
    intros Hall. now inversion Hall.
  - destruct (f a) as [b | e] eqn:Hfa; cbn [bind].
    + destruct (mapM f l) as [bs | e] eqn:Hl; cbn [bind].
      * split.
        -- intros E. injection E as <-. constructor; [exact Hfa|]. now apply IH.
        -- intros Hall. inversion Hall as [|? b' ? bs' Hb Hbs]; subst.
           apply IH in Hbs. congruence.
      * split; [discriminate|].
        intros Hall. inversion Hall as [|? b' ? bs' Hb Hbs]; subst.
        apply IH in Hbs. discriminate Hbs.
    + split; [discriminate|].
      intros Hall. inversion Hall; subst. congruence.
Qed.

(* ================================================================== *)
(** ** The choices of fields and the initial rows *)

Section ModelHelpersFacts.

Context {S : QSerializer}.
Variable Model : Type.
Variable get_model : list string -> outcome Model.
Variable registry : Model -> option ModelAdmin.
Variable verbose_name_of : Model -> string -> option string.
Variable resolves_in : Model -> string -> bool.
Variable items : list (string * string) -> list (string * string).

Lemma label_of_fold (model : Model) (fields : list filter_field)
  (name : string) :
  existsb (unresolved verbose_name_of model) fields = false ->
  forall found,
    fold_left (fun found field =>
                 match field with
                 | FieldPair n v => if String.eqb n name then Some v else found
                 | FieldName n =>
                     if String.eqb n name then verbose_name_of model n
                     else found
                 end) fields found
    = match label_of (verbose_name_of model) fields name with
      | Some v => Some v
      | None => found
      end.
Proof.
  unfold label_of. induction fields as [|field fields IH]; intros Hres found;
    [reflexivity|].
  cbn [existsb] in Hres. apply orb_false_iff in Hres as [Hfield Hres].
  cbn [fold_left]. rewrite (IH Hres). symmetry. rewrite (IH Hres). symmetry.
  destruct (fold_left _ fields None); [reflexivity|].
  destruct field as [n v | n]; [now destruct (String.eqb n name)|].
  cbn [unresolved] in Hfield.
  destruct (verbose_name_of model n); [|discriminate Hfield].
  now destruct (String.eqb n name).
Qed.

(** One round on an entry that resolves. *)
Lemma collect_field_resolved (model : Model) (d : list (string * string))
  (field : filter_field) :
  unresolved verbose_name_of model field = false ->
  exists v,
    collect_field verbose_name_of model d field
    = Returns (dict_set (match field with
                         | FieldPair n _ | FieldName n => n
                         end) v d)
    /\ forall name found,
         match field with
         | FieldPair n v' => if String.eqb n name then Some v' else found
         | FieldName n =>
             if String.eqb n name then verbose_name_of model n else found
         end
         = if String.eqb (match field with
                          | FieldPair n _ | FieldName n => n
                          end) name
           then Some v else found.
Proof.
  destruct field as [n v | n]; cbn [unresolved collect_field].
  - intros _. exists v. now split.
  - destruct (verbose_name_of model n) as [v|]; [|discriminate].
    intros _. exists v. now split.
Qed.

(** When every bare entry resolves the loop returns a dictionary that has
    no key twice and binds each field to the label of its last entry. *)
Lemma collect_fields_from (model : Model) (fields : list filter_field) :
  existsb (unresolved verbose_name_of model) fields = false ->
  forall d,
    NoDup (map fst d) ->
    exists d',
      fold_left (fun acc field =>
                   match acc with
                   | Returns model_fields =>
                       collect_field verbose_name_of model model_fields field
                   | Raises e => Raises e
                   end) fields (Returns d)
      = Returns d'
      /\ NoDup (map fst d')
      /\ forall name,
           dict_get name d'
           = match label_of (verbose_name_of model) fields name with
             | Some v => Some v
             | None => dict_get name d
             end.
Proof.
  induction fields as [|field fields IH]; intros Hres d Hd.
  - exists d. now repeat split.
  - pose proof Hres as Hall.
    cbn [existsb] in Hres. apply orb_false_iff in Hres as [Hfield Hres].
    destruct (collect_field_resolved model d field Hfield) as (v & Hstep & Hlabel).
    cbn [fold_left]. rewrite Hstep.
    set (key := match field with FieldPair n _ | FieldName n => n end) in *.
    destruct (IH Hres _ (dict_set_NoDup key v d Hd)) as (d' & Hfold & Hnd & Hget).
    exists d'. split; [exact Hfold|]. split; [exact Hnd|].
    intros name. rewrite Hget. unfold label_of at 2. cbn [fold_left].
    rewrite (label_of_fold model fields name Hres).
    destruct (label_of _ fields name); [reflexivity|].
    rewrite dict_get_set, (Hlabel name None).
    now destruct (String.eqb _ name).
Qed.

Lemma collect_fields_items (model : Model) (fields : list filter_field) :
  existsb (unresolved verbose_name_of model) fields = false ->
  exists collected,
    collect_fields verbose_name_of model fields = Returns collected
    /\ NoDup (map fst collected)
    /\ forall name v,
         In (name, v) collected
         <-> label_of (verbose_name_of model) fields name = Some v.
Proof.
  intros Hres.
  destruct (collect_fields_from model fields Hres [] (NoDup_nil _))
    as (collected & Hfold & Hnd & Hget).
  exists collected. split; [exact Hfold|]. split; [exact Hnd|].
  intros name v. rewrite (dict_get_In name v _ Hnd), Hget.
  cbn [dict_get]. now destruct (label_of _ fields name).
Qed.

(** Once an exception is raised the loop is over. *)
Lemma collect_fields_raised (model : Model) (fields : list filter_field)
  (e : pyexc) :
  fold_left (fun acc field =>
               match acc with
               | Returns model_fields =>
                   collect_field verbose_name_of model model_fields field
               | Raises e => Raises e
               end) fields (Raises e)
  = Raises e.
Proof. induction fields as [|field fields IH]; [reflexivity | exact IH]. Qed.

(** One bare entry that does not resolve, wherever it stands among the
    entries, makes the loop raise [NameError]. *)
Lemma collect_fields_raises (model : Model) (fields : list filter_field) :
  existsb (unresolved verbose_name_of model) fields = true ->
  forall d,
    fold_left (fun acc field =>
                 match acc with
                 | Returns model_fields =>
                     collect_field verbose_name_of model model_fields field
                 | Raises e => Raises e
                 end) fields (Returns d)
    = Raises (Exn NameError).
Proof.
  induction fields as [|field fields IH]; [discriminate|].
  cbn [existsb fold_left]. intros Hbad d.
  destruct (unresolved verbose_name_of model field) eqn:Hfield.
  - destruct field as [n v | n]; [discriminate Hfield|].
    cbn [unresolved] in Hfield. cbn [collect_field].
    destruct (verbose_name_of model n); [discriminate Hfield|].
    apply collect_fields_raised.
  - destruct (collect_field_resolved model d field Hfield) as (v & -> & _).
    now apply IH.
Qed.


(** X19: The choices of a registered model whose entries all resolve are
    exactly the fields that the entries name, each once, under the
    capitalised label of its last entry: the label of a pair, or the
    verbose name of the field at the end of a bare path. *)
Theorem get_fields_from_model_choices (self : AdvancedFilter) (name : string)
  (target : Model) (model_admin : ModelAdmin) :
  (forall d, Permutation (items d) d) ->
  model self = Some name ->
  get_model (split_dot name) = Returns target ->
  registry target = Some model_admin ->
  existsb (unresolved verbose_name_of target)
          (get_default (advanced_filter_fields model_admin) []) = false ->
  exists choices,
    get_fields_from_model get_model registry verbose_name_of items self
    = Returns (choices ++ FIELD_CHOICES)%list
    /\ NoDup (map fst choices)
    /\ forall f label,
         In (f, label) choices
         <-> exists v,
               label_of (verbose_name_of target)
                        (get_default (advanced_filter_fields model_admin) [])
                        f = Some v
               /\ label = capitalize v.
Proof.
  intros Hitems Hname Hmodel Hadmin Hres. unfold get_fields_from_model.
  rewrite Hname, Hmodel, Hadmin.
  set (fields := get_default (advanced_filter_fields model_admin) []) in *.
  destruct (collect_fields_items target fields Hres)
    as (collected & -> & Hnd & Hin).
  set (labelled := map (fun f => (fst f, capitalize (snd f))) (items collected)).
  assert (Hperm : Permutation
                    (sorted_by (fun f => lower (snd f)) labelled) labelled)
    by apply sorted_by_permutation.
  eexists. split; [reflexivity|]. split.
  - apply (Permutation_NoDup (l := map fst collected)); [|exact Hnd].
    rewrite Hperm. unfold labelled. rewrite map_map. cbn [fst].
    apply Permutation_map. symmetry. apply Hitems.
  - intros f label. split.
    + intros Hchoice. apply (Permutation_in _ Hperm) in Hchoice.
      unfold labelled in Hchoice. apply in_map_iff in Hchoice
        as ([f' v] & E & Hitem).
      cbn [fst snd] in E. injection E as <- <-.
      exists v. split; [|reflexivity]. apply Hin.
      now apply (Permutation_in _ (Hitems collected)).
    + intros (v & Hlabel & ->).
      apply (Permutation_in _ (Permutation_sym Hperm)).
      unfold labelled. apply in_map_iff. exists (f, v).
      split; [reflexivity|].
      apply (Permutation_in _ (Permutation_sym (Hitems collected))).
      now apply Hin.
Qed.

(** X21: Where the method means to log and go on, it raises.  For a model
    that the admin site does not know, and for a registered model one of
    whose bare entries, wherever it stands among them, names a path that
    does not resolve, the [except] branch calls the [logger] that the
    module never binds, and the method raises [NameError] instead of
    returning the choices without that entry. *)
Theorem get_fields_from_model_name_error (self : AdvancedFilter)
  (name : string) (target : Model) :
  model self = Some name ->
  get_model (split_dot name) = Returns target ->
  match registry target with
  | None => True
  | Some model_admin =>
      existsb (unresolved verbose_name_of target)
              (get_default (advanced_filter_fields model_admin) []) = true
  end ->
  get_fields_from_model get_model registry verbose_name_of items self
  = Raises (Exn NameError).
Proof.
  intros Hname Hmodel Hbad. unfold get_fields_from_model.
  rewrite Hname, Hmodel.
  destruct (registry target) as [model_admin|]; [|reflexivity].
  unfold collect_fields. now rewrite (collect_fields_raises target _ Hbad).
Qed.

(** X20: [initialize_form] gives all the rows or none: it returns a list
    exactly when every stored row is parsed, and the list then holds the
    parsed rows one for one in the stored order; one row that raises
    makes the whole call raise. *)
Theorem initialize_form_all_or_nothing
  (self : AdvancedFilter) (name : string) (target : Model)
  (fields : list row) :
  model self = Some name ->
  get_model (split_dot name) = Returns target ->
  list_fields self = OK fields ->
  forall initials,
    initialize_form_of_model get_model resolves_in self
    = Returns initials
    <-> Forall2 (fun field_data initial =>
                   _parse_query_dict (resolves_in target) field_data
                   = OK initial)
                fields initials.
Proof.
  intros Hname Hmodel Hfields initials.
  unfold initialize_form_of_model, initialize_form.
  rewrite Hname, Hmodel, Hfields. cbn [bind]. rewrite <- mapM_Forall2.
  destruct (mapM _ fields) as [out | e]; cbn [outcome_of].
  - split; intros E; injection E as <-; reflexivity.
  - split; discriminate.
Qed.

End ModelHelpersFacts.

(* ================================================================== *)
(** ** The methods around the compiler on the example site *)

Lemma queryset_custom_first_witness :
  let t := mkCustom "mine" "Mine too" (Q_kw ("owner__iexact", VStr "me")) in
  (custom_id t <> EmptyString
   /\ example_custom
      = ([ mkCustom "mine" "Mine" (Q_kw ("owner", VStr "me"));
           mkCustom "open" "Open" (Q_kw ("status__iexact", VStr "open")) ]
         ++ t :: [])%list)
  /\ @AdvancedListFilters_queryset reference_serializer (list Q)
       example_filter example_distinct example_first_by_id
       example_custom (Some "mine") []
     = Returns [Q_kw ("owner__iexact", VStr "me")].
Proof.
  cbn zeta. split; [split; [discriminate | reflexivity]|].
  apply (@queryset_custom_first reference_serializer (list Q)
           example_filter example_distinct example_first_by_id
           [ mkCustom "mine" "Mine" (Q_kw ("owner", VStr "me"));
             mkCustom "open" "Open" (Q_kw ("status__iexact", VStr "open")) ]
           []
           (mkCustom "mine" "Mine too" (Q_kw ("owner__iexact", VStr "me")))
           []);
    [discriminate | intros t' []].
Defined.


Lemma queryset_empty_token_raises_witness :
  (example_first_by_id "7" = Returns (Some (blank_filter (Some EmptyString)))
   /\ b64_query (blank_filter (Some EmptyString)) = Some EmptyString)
  /\ @AdvancedListFilters_queryset reference_serializer (list Q)
       example_filter example_distinct example_first_by_id
       example_custom (Some "7") []
     = Raises (AttributeError "__dict__").
Proof.
  split; [split; reflexivity|].
  apply (@queryset_empty_token_raises reference_serializer (list Q)
           example_filter example_distinct example_first_by_id
           example_custom "7" (blank_filter (Some EmptyString)) []);
    [discriminate | | reflexivity | right; reflexivity].
  intros t [<- | [<- | [<- | []]]]; discriminate.
Defined.


Lemma get_fields_from_model_choices_witness :
  get_fields_from_model example_get_model example_registry
    example_verbose_name example_items (blank_filter None)
  = Returns [ ("colour", "Colour of the label"); ("owner__name", "Owner");
              ("status", "Ticket state");
              ("_OR", "OR (mark an or between blocks)") ]
  /\ exists choices,
       get_fields_from_model example_get_model example_registry
         example_verbose_name example_items (blank_filter None)
       = Returns (choices ++ FIELD_CHOICES)%list
       /\ NoDup (map fst choices)
       /\ forall f label,
            In (f, label) choices
            <-> exists v,
                  label_of (example_verbose_name "tickets__Ticket")
                    [ FieldName "status"; FieldPair "owner__name" "owner";
                      FieldName "colour"; FieldPair "status" "ticket state" ]
                    f = Some v
                  /\ label = capitalize v.
Proof.
  split; [reflexivity|].
  apply (@get_fields_from_model_choices string example_get_model
           example_registry example_verbose_name example_items
           (blank_filter None) "tickets.Ticket" "tickets__Ticket"
           (mkModelAdmin
              (Some [ FieldName "status"; FieldPair "owner__name" "owner";
                      FieldName "colour"; FieldPair "status" "ticket state" ])
              (Some true)));
    first [reflexivity | intros d; apply Permutation_refl].
Defined.

Lemma get_fields_from_model_name_error_witness :
  let drafts := mkAdvancedFilter "Drafts" "/admin/blog/post/" (Some "blog.Post")
                                 None in
  let stock := mkAdvancedFilter "Stock" "/admin/shop/item/" (Some "shop.Item")
                                None in
  (example_registry "shop__Item" = None
   /\ existsb (unresolved example_verbose_name "blog__Post")
              [ FieldPair "title" "headline"; FieldName "author__name";
                FieldName "status" ] = true)
  /\ get_fields_from_model example_get_model example_registry
       example_verbose_name example_items drafts
     = Raises (Exn NameError)
  /\ get_fields_from_model example_get_model example_registry
       example_verbose_name example_items stock
     = Raises (Exn NameError).
Proof.
  cbn zeta. split; [split; reflexivity|]. split.
  - apply (@get_fields_from_model_name_error string example_get_model
             example_registry example_verbose_name example_items
             (mkAdvancedFilter "Drafts" "/admin/blog/post/" (Some "blog.Post")
                               None)
             "blog.Post" "blog__Post");
      reflexivity.
  - apply (@get_fields_from_model_name_error string example_get_model
             example_registry example_verbose_name example_items
             (mkAdvancedFilter "Stock" "/admin/shop/item/" (Some "shop.Item")
                               None)
             "shop.Item" "shop__Item");
      first [reflexivity | exact I].
Defined.

Lemma initialize_form_all_or_nothing_witness :
  (model example_stored = Some "tickets.Ticket"
   /\ @list_fields reference_serializer example_stored
      = OK [ leaf_row "status__iexact" (VStr "open") false; or_row;
             leaf_row "status__iexact" (VStr "pending") false ])
  /\ @initialize_form_of_model reference_serializer string example_get_model
       example_resolves example_stored
     = Returns
         [ mkRow "status" (Some "iexact") (Some (VStr "open")) None None
                 (Some false);
           mkRow "_OR" (Some "iexact") None None None None;
           mkRow "status" (Some "iexact") (Some (VStr "pending")) None None
                 (Some false) ].
Proof.
  assert (Hfields : @list_fields reference_serializer example_stored
                    = OK [ leaf_row "status__iexact" (VStr "open") false;
                           or_row;
                           leaf_row "status__iexact" (VStr "pending") false ])
    by (vm_compute; reflexivity).
  split; [split; [reflexivity | exact Hfields]|].
  apply (@initialize_form_all_or_nothing reference_serializer string
           example_get_model example_resolves example_stored
           "tickets.Ticket" "tickets__Ticket" _ eq_refl eq_refl Hfields).
  repeat constructor.
Defined.
